(** * Vanna AI server: the [/generate-sql] handler of [services/vanna/main.py]

    The handler lowercases the question, runs it through twelve keyword rules
    (an [if]/[elif] cascade), falls back to a chat-completion call when no rule
    matches, executes the resulting SQL and zips the rows into records.

    Strings are sequences of code points.  The development covers the code
    points U+0000 to U+00FF: a character is an [ascii] (eight bits) and the
    tables below are Python's [str.lower], [str.isspace] and the [re] classes
    [\d] and [\w] restricted to that range.  The lowercasing of the question
    and the threshold of rule 9 are modelled a second time in [Wide], over
    an alphabet with a few characters more, where lowercasing changes the
    length of a string and a digit need not be one of 0-9. *)

From Stdlib Require Import Ascii String NArith Bool List Lia.
From stdpp Require Import base option strings gmap list.

(** ** Python string primitives *)

Module Py.

Local Open Scope N_scope.

Definition code (c : ascii) : N := N_of_ascii c.

Definition in_range (lo hi : N) (c : ascii) : bool :=
  (lo <=? code c) && (code c <=? hi).

(** Characters that [str.lower] changes: A-Z and the Latin-1 capitals
    U+00C0-U+00D6, U+00D8-U+00DE; each moves up by 32. *)
Definition is_upper (c : ascii) : bool :=
  in_range 65 90 c || in_range 192 214 c || in_range 216 222 c.

Definition lower_char (c : ascii) : ascii :=
  if is_upper c then ascii_of_N (code c + 32) else c.

Fixpoint lower (s : string) : string :=
  match s with
  | EmptyString => EmptyString
  | String c t => String (lower_char c) (lower t)
  end.

(** [str.isspace]: TAB LF VT FF CR, FS GS RS US, SPACE, NEL, NBSP. *)
Definition is_space (c : ascii) : bool :=
  in_range 9 13 c || in_range 28 32 c || (code c =? 133) || (code c =? 160).

(** [\d] of a [str] pattern: decimal digits. *)
Definition is_digit (c : ascii) : bool := in_range 48 57 c.

(** [\w] of a [str] pattern: alphanumeric (alphabetic, decimal, digit or
    numeric) or underscore. *)
Definition is_word (c : ascii) : bool :=
  in_range 48 57 c || in_range 65 90 c || (code c =? 95) || in_range 97 122 c
  || (code c =? 170) || in_range 178 179 c || (code c =? 181)
  || in_range 185 186 c || in_range 188 190 c
  || in_range 192 214 c || in_range 216 246 c || in_range 248 255 c.

(** [s.startswith(p)] *)
Fixpoint startswith (p s : string) : bool :=
  match p, s with
  | EmptyString, _ => true
  | String a p', String b s' => if ascii_dec a b then startswith p' s' else false
  | String _ _, EmptyString => false
  end.

(** [needle in hay] *)
Fixpoint contains (needle hay : string) : bool :=
  startswith needle hay ||
  match hay with
  | EmptyString => false
  | String _ t => contains needle t
  end.

Fixpoint drop (n : nat) (s : string) : string :=
  match n, s with
  | O, _ => s
  | S n', String _ t => drop n' t
  | S _, EmptyString => EmptyString
  end.

Fixpoint take (n : nat) (s : string) : string :=
  match n, s with
  | O, _ => EmptyString
  | S n', String c t => String c (take n' t)
  | S _, EmptyString => EmptyString
  end.

(** [s.lstrip()], [s.rstrip()], [s.strip()] *)
Fixpoint lstrip (s : string) : string :=
  match s with
  | EmptyString => EmptyString
  | String c t => if is_space c then lstrip t else s
  end.

Fixpoint rstrip (s : string) : string :=
  match s with
  | EmptyString => EmptyString
  | String c t =>
      match rstrip t with
      | EmptyString => if is_space c then EmptyString else String c EmptyString
      | t' => String c t'
      end
  end.

Definition strip (s : string) : string := rstrip (lstrip s).

(** [s.replace(old, new)] for a non-empty [old]: occurrences are found from
    the left and do not overlap.  [skip] counts the characters of the current
    occurrence that are still to be passed over. *)
Fixpoint replace_from (old new : string) (skip : nat) (s : string) : string :=
  match s with
  | EmptyString => EmptyString
  | String c t =>
      match skip with
      | S k => replace_from old new k t
      | O =>
          if startswith old s
          then new +:+ replace_from old new (String.length old - 1) t
          else String c (replace_from old new 0 t)
      end
  end.

(** With an empty [old] Python puts [new] before every character and at the
    end. *)
Fixpoint intersperse (new s : string) : string :=
  match s with
  | EmptyString => new
  | String c t => new +:+ String c (intersperse new t)
  end.

Definition replace (old new s : string) : string :=
  match old with
  | EmptyString => intersperse new s
  | _ => replace_from old new 0 s
  end.

(** [sep.join(parts)] *)
Fixpoint join (sep : string) (parts : list string) : string :=
  match parts with
  | [] => EmptyString
  | [p] => p
  | p :: rest => p +:+ sep +:+ join sep rest
  end.

End Py.

(** ** String constants of the source *)

Definition nl : string := String "010"%char EmptyString.
Definition dq : string := String "034"%char EmptyString.

(** A double-quoted SQL identifier, as it is spelled inside the templates. *)
Definition qid (name : string) : string := dq +:+ name +:+ dq.

(** The text of a triple-quoted literal, given line by line. *)
Definition block (ls : list string) : string := Py.join nl ls.

(** ** Step 1: the twelve predefined questions *)

Definition sql_total_spend_90 : string := block [
  "";
  "        SELECT SUM(amount) AS total_spend";
  "        FROM " +:+ qid "Invoice";
  "        WHERE date >= CURRENT_DATE - INTERVAL '90 days';";
  "        " ].

Definition sql_top_vendors : string := block [
  "";
  "        SELECT ";
  "            COALESCE(" +:+ qid "Vendor" +:+ ".name, 'Unknown Vendor') AS vendor_name,";
  "            SUM(" +:+ qid "Invoice" +:+ ".amount) AS total_spend";
  "        FROM " +:+ qid "Invoice";
  "        LEFT JOIN " +:+ qid "Vendor" +:+ " ON " +:+ qid "Invoice" +:+ "."
    +:+ qid "vendorId" +:+ " = " +:+ qid "Vendor" +:+ ".id";
  "        GROUP BY vendor_name";
  "        ORDER BY total_spend DESC";
  "        LIMIT 5;";
  "        " ].

Definition sql_average_invoice : string :=
  "SELECT AVG(amount) AS avg_invoice_value FROM " +:+ qid "Invoice" +:+ ";".

Definition sql_cash_outflow : string := block [
  "";
  "        SELECT TO_CHAR(date_trunc('month', date), 'YYYY-MM') AS month,";
  "               SUM(ABS(amount)) AS cash_outflow";
  "        FROM " +:+ qid "Invoice";
  "        WHERE amount < 0";
  "        GROUP BY month";
  "        ORDER BY month;";
  "        " ].

Definition sql_spend_by_category : string := block [
  "";
  "        SELECT ";
  "            COALESCE(" +:+ qid "Vendor" +:+ ".category, 'Uncategorized') AS category,";
  "            SUM(" +:+ qid "Invoice" +:+ ".amount) AS total_spend";
  "        FROM " +:+ qid "Invoice";
  "        LEFT JOIN " +:+ qid "Vendor" +:+ " ON " +:+ qid "Invoice" +:+ "."
    +:+ qid "vendorId" +:+ " = " +:+ qid "Vendor" +:+ ".id";
  "        GROUP BY category";
  "        ORDER BY total_spend DESC;";
  "        " ].

Definition sql_overdue_pending : string := block [
  "";
  "        SELECT " +:+ qid "invoiceNo" +:+ ", date, amount, status";
  "        FROM " +:+ qid "Invoice";
  "        WHERE status ILIKE '%pending%' OR status ILIKE '%overdue%';";
  "        " ].

Definition sql_processed_this_month : string := block [
  "";
  "        SELECT " +:+ qid "invoiceNo" +:+ ", date, amount, status";
  "        FROM " +:+ qid "Invoice";
  "        WHERE status ILIKE '%processed%'";
  "        AND date >= date_trunc('month', CURRENT_DATE)";
  "        ORDER BY date DESC;";
  "        " ].

Definition sql_compare_vendor_quarter : string := block [
  "";
  "        SELECT ";
  "            " +:+ qid "Vendor" +:+ ".name AS vendor_name,";
  "            SUM(" +:+ qid "Invoice" +:+ ".amount) AS total_spend";
  "        FROM " +:+ qid "Invoice";
  "        LEFT JOIN " +:+ qid "Vendor" +:+ " ON " +:+ qid "Invoice" +:+ "."
    +:+ qid "vendorId" +:+ " = " +:+ qid "Vendor" +:+ ".id";
  "        WHERE date >= date_trunc('quarter', CURRENT_DATE)";
  "        GROUP BY vendor_name";
  "        ORDER BY total_spend DESC;";
  "        " ].

(** The f-string of the ninth rule, split at its [{threshold}] hole. *)
Definition sql_above_head : string := block [
  "";
  "        SELECT " +:+ qid "invoiceNo" +:+ ", date, amount, status";
  "        FROM " +:+ qid "Invoice";
  "        WHERE amount > " ].

Definition sql_above_tail : string := block [
  "";
  "        ORDER BY amount DESC;";
  "        " ].

Definition sql_above (threshold : string) : string :=
  sql_above_head +:+ threshold +:+ sql_above_tail.

Definition sql_total_pending : string := block [
  "";
  "        SELECT SUM(amount) AS total_pending_amount";
  "        FROM " +:+ qid "Invoice";
  "        WHERE status ILIKE '%pending%';";
  "        " ].

Definition sql_invoice_count : string := block [
  "";
  "        SELECT ";
  "            " +:+ qid "Vendor" +:+ ".name AS vendor_name,";
  "            COUNT(" +:+ qid "Invoice" +:+ ".id) AS invoice_count";
  "        FROM " +:+ qid "Invoice";
  "        LEFT JOIN " +:+ qid "Vendor" +:+ " ON " +:+ qid "Invoice" +:+ "."
    +:+ qid "vendorId" +:+ " = " +:+ qid "Vendor" +:+ ".id";
  "        GROUP BY vendor_name";
  "        ORDER BY invoice_count DESC;";
  "        " ].

Definition sql_category_this_year : string := block [
  "";
  "        SELECT ";
  "            COALESCE(" +:+ qid "Vendor" +:+ ".category, 'Uncategorized') AS category,";
  "            SUM(" +:+ qid "Invoice" +:+ ".amount) AS total_spend";
  "        FROM " +:+ qid "Invoice";
  "        LEFT JOIN " +:+ qid "Vendor" +:+ " ON " +:+ qid "Invoice" +:+ "."
    +:+ qid "vendorId" +:+ " = " +:+ qid "Vendor" +:+ ".id";
  "        WHERE date >= date_trunc('year', CURRENT_DATE)";
  "        GROUP BY category";
  "        ORDER BY total_spend DESC;";
  "        " ].

(** *** [re.search(r'\b(\d{3,6})\b', query)]

    The pattern is tried at every position from the left.  At a position the
    matcher needs a word boundary, then takes as many digits as it can, at
    most six, and gives them back one at a time, down to three, until a word
    boundary follows. *)

Module Re.

(** [\b] between a character known to be a word character or not ([prev],
    false at the start of the string) and the rest of the string. *)
Definition at_boundary (prev : bool) (rest : string) : bool :=
  let this :=
    match rest with
    | EmptyString => false
    | String c _ => Py.is_word c
    end in
  negb (Bool.eqb this prev).

(** How many of the first [limit] characters are digits. *)
Fixpoint digit_run (limit : nat) (s : string) : nat :=
  match limit, s with
  | S l, String c t => if Py.is_digit c then S (digit_run l t) else O
  | _, _ => O
  end.

(** Greedy [\d{3,6}] followed by [\b]: [n] digits are in hand; the first
    length, from [n] down to three, that ends on a boundary wins. *)
Fixpoint backtrack (n : nat) (s : string) : option string :=
  if (n <? 3)%nat then None
  else if at_boundary true (Py.drop n s) then Some (Py.take n s)
  else match n with
       | O => None
       | S n' => backtrack n' s
       end.

Definition match_here (prev : bool) (s : string) : option string :=
  if at_boundary prev s then backtrack (digit_run 6 s) s else None.

Fixpoint search_from (prev : bool) (s : string) : option string :=
  match match_here prev s with
  | Some g => Some g
  | None =>
      match s with
      | EmptyString => None
      | String c t => search_from (Py.is_word c) t
      end
  end.

(** [group(1)] of the leftmost match, if there is one. *)
Definition search_amount (s : string) : option string := search_from false s.

End Re.

Definition threshold_of (query : string) : string :=
  match Re.search_amount query with
  | Some amount => amount
  | None => "1000"
  end.

(** The cascade, in source order; [None] is the final [else]. *)
Definition predefined_sql (query : string) : option string :=
  if Py.contains "total spend" query && Py.contains "90" query then
    Some sql_total_spend_90
  else if Py.contains "top" query && Py.contains "vendor" query then
    Some sql_top_vendors
  else if Py.contains "average" query && Py.contains "invoice" query then
    Some sql_average_invoice
  else if Py.contains "cash outflow" query || Py.contains "expenses" query then
    Some sql_cash_outflow
  else if Py.contains "spend by category" query || Py.contains "category spend" query then
    Some sql_spend_by_category
  else if Py.contains "overdue" query || Py.contains "pending" query then
    Some sql_overdue_pending
  else if Py.contains "processed" query
          && (Py.contains "this month" query || Py.contains "current month" query) then
    Some sql_processed_this_month
  else if Py.contains "compare" query && Py.contains "vendor" query
          && Py.contains "quarter" query then
    Some sql_compare_vendor_quarter
  else if Py.contains "above" query && Py.contains "invoice" query then
    Some (sql_above (threshold_of query))
  else if Py.contains "total pending" query || Py.contains "pending amount" query then
    Some sql_total_pending
  else if Py.contains "invoice count" query && Py.contains "vendor" query then
    Some sql_invoice_count
  else if Py.contains "category" query && Py.contains "this year" query then
    Some sql_category_this_year
  else None.

(** ** The outside world: chat-completion service, database, log *)

(** A cell of a fetched row.  Floating-point cells carry their IEEE-754 bit
    pattern, dates their ISO text. *)
Inductive cell :=
  | CNull
  | CInt (z : Z)
  | CFloat (bits : Z)
  | CStr (s : string)
  | CDate (iso : string).

(** A call either returns or raises; an exception is kept as [str(e)]. *)
Inductive outcome (A : Type) :=
  | Returns (a : A)
  | Raises (msg : string).
Arguments Returns {A} a.
Arguments Raises {A} msg.

(** What the handler can observe of one request's surroundings.  A completion
    is the list of its choices, each with the [message.content] it carries
    ([None] for a null content).  [cur.description] is [None] when the
    statement produced no result set, else the column names ([desc[0]]). *)
Record world := World {
  groq_create : string -> outcome (list (option string));
  db_connect : outcome unit;
  db_cursor : outcome unit;
  db_execute : string -> outcome unit;
  db_fetchall : string -> outcome (list (list cell));
  db_description : string -> option (list string);
  db_cursor_close : outcome unit;
  db_conn_close : outcome unit
}.

Inductive log_tag := GroqError | SqlExecutionError.

(** Calls that leave the process, in the order they are made. *)
Inductive event :=
  | EvGroq (model : string) (messages : list (string * string))
  | EvConnect
  | EvCursor
  | EvExecute (sql : string)
  | EvFetchall
  | EvCursorClose
  | EvConnClose
  | EvPrint (tag : log_tag) (msg : string).

(** Computations that record their calls and may raise. *)
Definition M (A : Type) : Type := list event * outcome A.

Definition raise {A} (msg : string) : M A := ([], Raises msg).

#[global] Instance M_ret : MRet M := fun A a => ([], Returns a).

#[global] Instance M_bind : MBind M := fun A B k m =>
  match m with
  | (t, Returns a) => let '(t', r) := k a in (t ++ t', r)
  | (t, Raises msg) => (t, Raises msg)
  end.

(** [try: m except Exception as e: handler e] *)
Definition try_except {A} (m : M A) (handler : string -> M A) : M A :=
  match m with
  | (t, Returns a) => (t, Returns a)
  | (t, Raises msg) => let '(t', r) := handler msg in (t ++ t', r)
  end.

(** An outside call: log it, then return or raise as the world says. *)
Definition call {A} (e : event) (o : outcome A) : M A := ([e], o).

Definition print (tag : log_tag) (msg : string) : M unit :=
  ([EvPrint tag msg], Returns tt).

Definition trace {A} (m : M A) : list event := fst m.
Definition result {A} (m : M A) : outcome A := snd m.

(** ** The response body *)

(** One record of the result set: [dict(zip(columns, row))].  [zip] stops at
    the shorter argument; [dict] inserts the pairs from left to right, a
    later pair replacing an earlier one with the same key. *)
Definition dict {V : Type} (pairs : list (string * V)) : gmap string V :=
  foldl (fun d kv => <[kv.1 := kv.2]> d) ∅ pairs.

Definition dict_zip (columns : list string) (row : list cell) : gmap string cell :=
  dict (zip columns row).

(** The JSON object returned; an absent key is [None]. *)
Record response := Response {
  r_query : option string;
  r_sql : option string;
  r_result : option (list (gmap string cell));
  r_error : option string
}.

(** ** Step 2: the fallback *)

Definition groq_model : string := "llama-3.1-8b-instant".

(** The prompt f-string. *)
Definition prompt_of (query : string) : string := block [
  "";
  "You are an expert SQL assistant with knowledge of this PostgreSQL schema:";
  "";
  "Tables:";
  "- " +:+ qid "Invoice" +:+ "(id, invoiceNo, vendorId, date, amount, status)";
  "- " +:+ qid "Vendor" +:+ "(id, name, category)";
  "- " +:+ qid "Payment" +:+ "(id, invoiceId, method, amount, date)";
  "- " +:+ qid "LineItem" +:+ "(id, description, quantity, price, invoiceId)";
  "";
  "Generate a valid SQL query (PostgreSQL) to answer this question:";
  query;
  "";
  "Return **only** SQL code (no explanations).";
  "" ].

Definition fence : string := "```".
Definition fence_sql : string := "```sql".

(** Lines 175-177: strip, and when a fence is present delete every
    [```sql], then every [```], and strip again. *)
Definition clean_sql (content : string) : string :=
  let sql := Py.strip content in
  if Py.contains fence sql
  then Py.strip (Py.replace fence "" (Py.replace fence_sql "" sql))
  else sql.

(** [completion.choices[0].message.content.strip()] and what goes wrong when
    the list is empty or the content is null. *)
Definition first_content (choices : list (option string)) : M string :=
  match choices with
  | [] => raise "list index out of range"
  | None :: _ => raise "'NoneType' object has no attribute 'strip'"
  | Some content :: _ => mret content
  end.

Definition groq_sql (w : world) (query : string) : M string :=
  let prompt := prompt_of query in
  choices ← call (EvGroq groq_model [("user", prompt)]) (groq_create w prompt);
  content ← first_content choices;
  mret (clean_sql content).

(** ** Step 3: run the SQL *)

(** [psycopg2.connect(DATABASE_URL)] *)
Definition get_db (w : world) : M unit := call EvConnect (db_connect w).

Definition columns_of (description : option (list string)) : M (list string) :=
  match description with
  | None => raise "'NoneType' object is not iterable"
  | Some names => mret names
  end.

Definition execute_sql (w : world) (query sql : string) : M response :=
  try_except
    (get_db w;;
     call EvCursor (db_cursor w);;
     call (EvExecute sql) (db_execute w sql);;
     rows ← call EvFetchall (db_fetchall w sql);
     columns ← columns_of (db_description w sql);
     call EvCursorClose (db_cursor_close w);;
     call EvConnClose (db_conn_close w);;
     let results := map (dict_zip columns) rows in
     mret (Response (Some query) (Some sql) (Some results) None))
    (fun e =>
       print SqlExecutionError e;;
       mret (Response (Some query) (Some sql) None (Some e))).

(** ** The handler

    Steps 1 and 2 leave either the SQL to run ([inr]) or, when the fallback
    raised, the response that the [except] branch returns at once ([inl]). *)
Definition resolve_sql (w : world) (query : string) : M (response + string) :=
  match predefined_sql query with
  | Some sql => mret (inr sql)
  | None =>
      try_except
        (sql ← groq_sql w query; mret (inr sql))
        (fun e =>
           print GroqError e;;
           mret (inl (Response (Some query) None None (Some e))))
  end.

Definition no_query_response : response :=
  Response None None None (Some "No query provided").

(** [body_query] is the [query] field of the JSON body, [None] when the key
    is absent ([body.get] then gives the empty string). *)
Definition generate_sql (w : world) (body_query : option string) : M response :=
  let query := Py.lower (default "" body_query) in
  if decide (query = "") then mret no_query_response
  else
    resolved ← resolve_sql w query;
    match resolved with
    | inl early => mret early
    | inr sql => execute_sql w query sql
    end.

(** ** The rules as a table

    Rule [k] of the cascade: its condition and the SQL it produces. *)

Definition rule_holds (k : nat) (query : string) : bool :=
  match k with
  | 1 => Py.contains "total spend" query && Py.contains "90" query
  | 2 => Py.contains "top" query && Py.contains "vendor" query
  | 3 => Py.contains "average" query && Py.contains "invoice" query
  | 4 => Py.contains "cash outflow" query || Py.contains "expenses" query
  | 5 => Py.contains "spend by category" query || Py.contains "category spend" query
  | 6 => Py.contains "overdue" query || Py.contains "pending" query
  | 7 => Py.contains "processed" query
         && (Py.contains "this month" query || Py.contains "current month" query)
  | 8 => Py.contains "compare" query && Py.contains "vendor" query
         && Py.contains "quarter" query
  | 9 => Py.contains "above" query && Py.contains "invoice" query
  | 10 => Py.contains "total pending" query || Py.contains "pending amount" query
  | 11 => Py.contains "invoice count" query && Py.contains "vendor" query
  | 12 => Py.contains "category" query && Py.contains "this year" query
  | _ => false
  end.

Definition rule_sql (k : nat) (query : string) : string :=
  match k with
  | 1 => sql_total_spend_90
  | 2 => sql_top_vendors
  | 3 => sql_average_invoice
  | 4 => sql_cash_outflow
  | 5 => sql_spend_by_category
  | 6 => sql_overdue_pending
  | 7 => sql_processed_this_month
  | 8 => sql_compare_vendor_quarter
  | 9 => sql_above (threshold_of query)
  | 10 => sql_total_pending
  | 11 => sql_invoice_count
  | 12 => sql_category_this_year
  | _ => ""
  end.


(** ** Sample worlds

    A world where every call succeeds. *)
Definition world_up : world :=
  World (fun _ => Returns [Some "SELECT 1;"])
        (Returns tt) (Returns tt) (fun _ => Returns tt)
        (fun _ => Returns [[CInt 7; CStr "paid"]])
        (fun _ => Some ["id"; "status"])
        (Returns tt) (Returns tt).

(** The chat-completion service is unreachable; the database is fine. *)
Definition world_groq_down : world :=
  World (fun _ => Raises "Connection error.")
        (Returns tt) (Returns tt) (fun _ => Returns tt)
        (fun _ => Returns [[CInt 7; CStr "paid"]])
        (fun _ => Some ["id"; "status"])
        (Returns tt) (Returns tt).

(** The database accepts the connection and rejects every statement. *)
Definition world_execute_fails : world :=
  World (fun _ => Returns [Some "SELEC 1;"])
        (Returns tt) (Returns tt)
        (fun _ => Raises "syntax error at or near SELEC")
        (fun _ => Returns [])
        (fun _ => None)
        (Returns tt) (Returns tt).

(** ** Vocabulary of the properties *)


(** A string without any whitespace character. *)
Fixpoint no_space (s : string) : bool :=
  match s with
  | EmptyString => true
  | String c t => negb (Py.is_space c) && no_space t
  end.

(** A string of decimal digits. *)
Fixpoint all_digits (s : string) : bool :=
  match s with
  | EmptyString => true
  | String c t => Py.is_digit c && all_digits t
  end.

(** Is the last character of [s] a word character?  [prev] answers for the
    empty string. *)
Fixpoint ends_in_word (prev : bool) (s : string) : bool :=
  match s with
  | EmptyString => prev
  | String c t => ends_in_word (Py.is_word c) t
  end.

Definition starts_with_word (s : string) : bool :=
  match s with
  | EmptyString => false
  | String c _ => Py.is_word c
  end.

(** In [pre +:+ num +:+ post] the number [num] stands alone: it has three to
    six digits and no word character touches it on either side.  [prev]
    tells whether a word character comes right before [pre]. *)
Definition standalone_after (prev : bool) (pre num post : string) : Prop :=
  all_digits num = true
  /\ 3 <= String.length num <= 6
  /\ ends_in_word prev pre = false
  /\ starts_with_word post = false.

Definition standalone : string -> string -> string -> Prop :=
  standalone_after false.

(** The fallback call fails with [msg]: the request raises, or the completion
    has no choice, or its first choice has a null content. *)
Inductive groq_fails (w : world) (prompt : string) : string -> Prop :=
  | groq_raises msg :
      groq_create w prompt = Raises msg -> groq_fails w prompt msg
  | groq_no_choice :
      groq_create w prompt = Returns [] ->
      groq_fails w prompt "list index out of range"
  | groq_null_content rest :
      groq_create w prompt = Returns (None :: rest) ->
      groq_fails w prompt "'NoneType' object has no attribute 'strip'".

(** Running [sql] fails with [msg] at one of the database calls, the earlier
    ones having returned. *)
Inductive execution_fails (w : world) (sql : string) : string -> Prop :=
  | fails_connect msg :
      db_connect w = Raises msg -> execution_fails w sql msg
  | fails_cursor msg :
      db_connect w = Returns tt -> db_cursor w = Raises msg ->
      execution_fails w sql msg
  | fails_execute msg :
      db_connect w = Returns tt -> db_cursor w = Returns tt ->
      db_execute w sql = Raises msg -> execution_fails w sql msg
  | fails_fetchall msg :
      db_connect w = Returns tt -> db_cursor w = Returns tt ->
      db_execute w sql = Returns tt -> db_fetchall w sql = Raises msg ->
      execution_fails w sql msg
  | fails_description rows :
      db_connect w = Returns tt -> db_cursor w = Returns tt ->
      db_execute w sql = Returns tt -> db_fetchall w sql = Returns rows ->
      db_description w sql = None ->
      execution_fails w sql "'NoneType' object is not iterable"
  | fails_cursor_close rows columns msg :
      db_connect w = Returns tt -> db_cursor w = Returns tt ->
      db_execute w sql = Returns tt -> db_fetchall w sql = Returns rows ->
      db_description w sql = Some columns ->
      db_cursor_close w = Raises msg ->
      execution_fails w sql msg
  | fails_conn_close rows columns msg :
      db_connect w = Returns tt -> db_cursor w = Returns tt ->
      db_execute w sql = Returns tt -> db_fetchall w sql = Returns rows ->
      db_description w sql = Some columns ->
      db_cursor_close w = Returns tt -> db_conn_close w = Raises msg ->
      execution_fails w sql msg.

(** Running [sql] succeeds with these rows and column names. *)
Definition execution_succeeds (w : world) (sql : string)
    (rows : list (list cell)) (columns : list string) : Prop :=
  db_connect w = Returns tt /\ db_cursor w = Returns tt
  /\ db_execute w sql = Returns tt /\ db_fetchall w sql = Returns rows
  /\ db_description w sql = Some columns
  /\ db_cursor_close w = Returns tt /\ db_conn_close w = Returns tt.

Definition is_groq (e : event) : bool :=
  match e with EvGroq _ _ => true | _ => false end.

Definition is_db (e : event) : bool :=
  match e with
  | EvConnect | EvCursor | EvExecute _ | EvFetchall | EvCursorClose | EvConnClose => true
  | _ => false
  end.

Definition is_close (e : event) : bool :=
  match e with EvCursorClose | EvConnClose => true | _ => false end.

(** The prompt around the question. *)
Definition prompt_head : string := block [
  "";
  "You are an expert SQL assistant with knowledge of this PostgreSQL schema:";
  "";
  "Tables:";
  "- " +:+ qid "Invoice" +:+ "(id, invoiceNo, vendorId, date, amount, status)";
  "- " +:+ qid "Vendor" +:+ "(id, name, category)";
  "- " +:+ qid "Payment" +:+ "(id, invoiceId, method, amount, date)";
  "- " +:+ qid "LineItem" +:+ "(id, description, quantity, price, invoiceId)";
  "";
  "Generate a valid SQL query (PostgreSQL) to answer this question:";
  "" ].

Definition prompt_tail : string := block [
  "";
  "";
  "Return **only** SQL code (no explanations).";
  "" ].

(** The four table declarations of the prompt. *)
Definition schema_declarations : list string := [
  "- " +:+ qid "Invoice" +:+ "(id, invoiceNo, vendorId, date, amount, status)";
  "- " +:+ qid "Vendor" +:+ "(id, name, category)";
  "- " +:+ qid "Payment" +:+ "(id, invoiceId, method, amount, date)";
  "- " +:+ qid "LineItem" +:+ "(id, description, quantity, price, invoiceId)" ].

Definition is_print (e : event) : bool :=
  match e with EvPrint _ _ => true | _ => false end.

Definition is_execute (e : event) : bool :=
  match e with EvExecute _ => true | _ => false end.

(** The database calls of a run that goes through, in the order of Step 3. *)
Definition db_calls (sql : string) : list event :=
  [EvConnect; EvCursor; EvExecute sql; EvFetchall; EvCursorClose; EvConnClose].

(** The outcomes of a request whose lowercased question is [query]: the
    calls made and the response, case by case. *)
Inductive outcome_of (w : world) (query : string) : M response -> Prop :=
  | no_query :
      query = "" -> outcome_of w query ([], Returns no_query_response)
  | fallback_failed msg :
      query <> "" -> predefined_sql query = None ->
      groq_fails w (prompt_of query) msg ->
      outcome_of w query
        ([EvGroq groq_model [("user", prompt_of query)]; EvPrint GroqError msg],
         Returns (Response (Some query) None None (Some msg)))
  | execution_failed asked sql msg n :
      query <> "" -> resolve_sql w query = (asked, Returns (inr sql)) ->
      execution_fails w sql msg -> 1 <= n <= 6 ->
      outcome_of w query
        (asked ++ take n (db_calls sql) ++ [EvPrint SqlExecutionError msg],
         Returns (Response (Some query) (Some sql) None (Some msg)))
  | answered asked sql rows columns :
      query <> "" -> resolve_sql w query = (asked, Returns (inr sql)) ->
      execution_succeeds w sql rows columns ->
      outcome_of w query
        (asked ++ db_calls sql,
         Returns (Response (Some query) (Some sql)
                    (Some (map (dict_zip columns) rows)) None)).

(** ** A wider alphabet

    Line 37 lowercases the question and line 115 searches it with classes
    that reach beyond U+0000-U+00FF.  This part models line 37 and lines
    114-122 over an alphabet that adds three things to U+0000-U+00FF: the
    capital I with dot above (U+0130), whose lowercase form is the two code
    points U+0069 U+0307; the combining dot above (U+0307), which is not a
    word character; and the Arabic-Indic digits (U+0660-U+0669), which the
    class of decimal digits accepts. *)

Module Wide.

Inductive decimal := D0 | D1 | D2 | D3 | D4 | D5 | D6 | D7 | D8 | D9.

Inductive char :=
  | Latin1 (c : ascii)
  | CapitalIDot
  | CombiningDot
  | ArabicIndic (d : decimal).

#[global] Instance decimal_eq_dec : EqDecision decimal.
Proof. solve_decision. Defined.

#[global] Instance char_eq_dec : EqDecision char.
Proof. solve_decision. Defined.

Definition value (d : decimal) : N :=
  match d with
  | D0 => 0 | D1 => 1 | D2 => 2 | D3 => 3 | D4 => 4
  | D5 => 5 | D6 => 6 | D7 => 7 | D8 => 8 | D9 => 9
  end%N.

(** The code point of a character. *)
Definition code (c : char) : N :=
  match c with
  | Latin1 a => Py.code a
  | CapitalIDot => 304
  | CombiningDot => 775
  | ArabicIndic d => 1632 + value d
  end%N.

(** A string of U+0000-U+00FF as a string of the wider alphabet. *)
Definition of_string (s : string) : list char :=
  map Latin1 (list_ascii_of_string s).

(** [str.lower], character by character; U+0130 gives two code points. *)
Definition lower_char (c : char) : list char :=
  match c with
  | Latin1 a => [Latin1 (Py.lower_char a)]
  | CapitalIDot => [Latin1 "i"%char; CombiningDot]
  | CombiningDot => [CombiningDot]
  | ArabicIndic d => [ArabicIndic d]
  end.

Fixpoint lower (s : list char) : list char :=
  match s with
  | [] => []
  | c :: t => lower_char c ++ lower t
  end.

(** [\d]: the decimal digits of every script. *)
Definition is_digit (c : char) : bool :=
  match c with
  | Latin1 a => Py.is_digit a
  | ArabicIndic _ => true
  | CapitalIDot | CombiningDot => false
  end.

(** [\w]: U+0130 is a letter, U+0307 a combining mark. *)
Definition is_word (c : char) : bool :=
  match c with
  | Latin1 a => Py.is_word a
  | CapitalIDot => true
  | CombiningDot => false
  | ArabicIndic _ => true
  end.

Fixpoint startswith (p s : list char) : bool :=
  match p, s with
  | [], _ => true
  | a :: p', b :: s' => if decide (a = b) then startswith p' s' else false
  | _ :: _, [] => false
  end.

Fixpoint contains (needle hay : list char) : bool :=
  startswith needle hay ||
  match hay with
  | [] => false
  | _ :: t => contains needle t
  end.

(** The pattern of line 115, as in [Re]. *)
Definition at_boundary (prev : bool) (rest : list char) : bool :=
  let this :=
    match rest with
    | [] => false
    | c :: _ => is_word c
    end in
  negb (Bool.eqb this prev).

Fixpoint digit_run (limit : nat) (s : list char) : nat :=
  match limit, s with
  | S l, c :: t => if is_digit c then S (digit_run l t) else O
  | _, _ => O
  end.

Fixpoint backtrack (n : nat) (s : list char) : option (list char) :=
  if (n <? 3)%nat then None
  else if at_boundary true (drop n s) then Some (take n s)
  else match n with
       | O => None
       | S n' => backtrack n' s
       end.

Definition match_here (prev : bool) (s : list char) : option (list char) :=
  if at_boundary prev s then backtrack (digit_run 6 s) s else None.

Fixpoint search_from (prev : bool) (s : list char) : option (list char) :=
  match match_here prev s with
  | Some g => Some g
  | None =>
      match s with
      | [] => None
      | c :: t => search_from (is_word c) t
      end
  end.

Definition search_amount (s : list char) : option (list char) :=
  search_from false s.

(** Lines 114-122. *)
Definition rule9_holds (query : list char) : bool :=
  contains (of_string "above") query && contains (of_string "invoice") query.

Definition threshold_of (query : list char) : list char :=
  match search_amount query with
  | Some amount => amount
  | None => of_string "1000"
  end.

Definition sql_above (threshold : list char) : list char :=
  of_string sql_above_head ++ threshold ++ of_string sql_above_tail.

(** Vocabulary, as for the narrow alphabet. *)
Definition all_digits (s : list char) : bool := forallb is_digit s.

Fixpoint ends_in_word (prev : bool) (s : list char) : bool :=
  match s with
  | [] => prev
  | c :: t => ends_in_word (is_word c) t
  end.

Definition starts_with_word (s : list char) : bool :=
  match s with
  | [] => false
  | c :: _ => is_word c
  end.

Definition standalone_after (prev : bool) (pre num post : list char) : Prop :=
  all_digits num = true
  /\ 3 <= length num <= 6
  /\ ends_in_word prev pre = false
  /\ starts_with_word post = false.

Definition standalone : list char -> list char -> list char -> Prop :=
  standalone_after false.

End Wide.

(** ** The request body

    Lines 36-37, none of which is inside a [try]: the body is parsed as
    JSON, [query] is read with [body.get] and lowercased. *)

(** A parsed JSON value; the members of an object in the order of the
    text. *)
Inductive json :=
  | JNull
  | JBool (b : bool)
  | JInt (z : Z)
  | JFloat (bits : Z)
  | JString (s : string)
  | JArray (items : list json)
  | JObject (members : list (string * json)).

(** [type(v).__name__] of the Python value that [json.loads] builds. *)
Definition type_name (v : json) : string :=
  match v with
  | JNull => "NoneType"
  | JBool _ => "bool"
  | JInt _ => "int"
  | JFloat _ => "float"
  | JString _ => "str"
  | JArray _ => "list"
  | JObject _ => "dict"
  end.

(** [str(e)] of the [AttributeError] for a missing method. *)
Definition attribute_error (v : json) (method : string) : string :=
  "'" +:+ type_name v +:+ "' object has no attribute '" +:+ method +:+ "'".

(** The whole endpoint.  [request_json] is what [await request.json()]
    does: it returns the parsed body or raises.  [json.loads] keeps the last
    of several members with one name, as [dict] does. *)
Definition post_generate_sql (w : world) (request_json : outcome json) : M response :=
  body ← (([], request_json) : M json);
  match body with
  | JObject members =>
      match dict members !! "query" with
      | None => generate_sql w None
      | Some (JString s) => generate_sql w (Some s)
      | Some v => raise (attribute_error v "lower")
      end
  | v => raise (attribute_error v "get")
  end.

(** A question outside U+0000-U+00FF: the text [invoice above ] followed by
    U+0130 and [500]. *)
Definition question_dotted_I : list Wide.char :=
  Wide.of_string "invoice above " ++ [Wide.CapitalIDot] ++ Wide.of_string "500".

(** Every rule before the ninth needs one of these in the query. *)
Definition earlier_keywords : list string :=
  ["total spend"; "top"; "average"; "cash outflow"; "expenses";
   "spend by category"; "category spend"; "overdue"; "pending";
   "processed"; "compare"].

(** * Properties of the handler *)

(** ** Facts about the string primitives *)

Ltac each_char c := destruct c as [[] [] [] [] [] [] [] []].

Lemma lower_char_idem c : Py.lower_char (Py.lower_char c) = Py.lower_char c.
Proof. each_char c; reflexivity. Qed.

Lemma lower_idem s : Py.lower (Py.lower s) = Py.lower s.
Proof.
  induction s as [|c t IH]; simpl; [reflexivity|].
  by rewrite lower_char_idem, IH.
Qed.

Lemma startswith_nonempty p : Py.startswith p "" = true -> p = "".
Proof. destruct p; [done | discriminate]. Qed.

Lemma contains_empty_hay p : p <> "" -> Py.contains p "" = false.
Proof. destruct p; [done | reflexivity]. Qed.

(** The cascade read through the table. *)
Lemma predefined_sql_table query :
  predefined_sql query =
  if rule_holds 1 query then Some (rule_sql 1 query)
  else if rule_holds 2 query then Some (rule_sql 2 query)
  else if rule_holds 3 query then Some (rule_sql 3 query)
  else if rule_holds 4 query then Some (rule_sql 4 query)
  else if rule_holds 5 query then Some (rule_sql 5 query)
  else if rule_holds 6 query then Some (rule_sql 6 query)
  else if rule_holds 7 query then Some (rule_sql 7 query)
  else if rule_holds 8 query then Some (rule_sql 8 query)
  else if rule_holds 9 query then Some (rule_sql 9 query)
  else if rule_holds 10 query then Some (rule_sql 10 query)
  else if rule_holds 11 query then Some (rule_sql 11 query)
  else if rule_holds 12 query then Some (rule_sql 12 query)
  else None.
Proof. reflexivity. Qed.

(** Solves [rule_holds i query = false] for an [i] below a known bound from
    the hypotheses left by the case analysis of the cascade. *)
Ltac earlier_rule i :=
  do 13 (destruct i as [|i]; [first [lia | assumption] |]); lia.

(** Either some rule is the first to hold and its SQL is the answer, or no
    rule holds and the cascade reaches its [else]. *)
Lemma predefined_sql_first query :
  (exists k, 1 <= k <= 12 /\ rule_holds k query = true
             /\ (forall i, 1 <= i < k -> rule_holds i query = false)
             /\ predefined_sql query = Some (rule_sql k query))
  \/ ((forall i, 1 <= i <= 12 -> rule_holds i query = false)
      /\ predefined_sql query = None).
Proof.
  rewrite predefined_sql_table.
  destruct (rule_holds 1 query) eqn:H1;
    [left; exists 1; repeat split; try lia; try done; intros i Hi; earlier_rule i|].
  destruct (rule_holds 2 query) eqn:H2;
    [left; exists 2; repeat split; try lia; try done; intros i Hi; earlier_rule i|].
  destruct (rule_holds 3 query) eqn:H3;
    [left; exists 3; repeat split; try lia; try done; intros i Hi; earlier_rule i|].
  destruct (rule_holds 4 query) eqn:H4;
    [left; exists 4; repeat split; try lia; try done; intros i Hi; earlier_rule i|].
  destruct (rule_holds 5 query) eqn:H5;
    [left; exists 5; repeat split; try lia; try done; intros i Hi; earlier_rule i|].
  destruct (rule_holds 6 query) eqn:H6;
    [left; exists 6; repeat split; try lia; try done; intros i Hi; earlier_rule i|].
  destruct (rule_holds 7 query) eqn:H7;
    [left; exists 7; repeat split; try lia; try done; intros i Hi; earlier_rule i|].
  destruct (rule_holds 8 query) eqn:H8;
    [left; exists 8; repeat split; try lia; try done; intros i Hi; earlier_rule i|].
  destruct (rule_holds 9 query) eqn:H9;
    [left; exists 9; repeat split; try lia; try done; intros i Hi; earlier_rule i|].
  destruct (rule_holds 10 query) eqn:H10;
    [left; exists 10; repeat split; try lia; try done; intros i Hi; earlier_rule i|].
  destruct (rule_holds 11 query) eqn:H11;
    [left; exists 11; repeat split; try lia; try done; intros i Hi; earlier_rule i|].
  destruct (rule_holds 12 query) eqn:H12;
    [left; exists 12; repeat split; try lia; try done; intros i Hi; earlier_rule i|].
  right. split; [|reflexivity]. intros i Hi. earlier_rule i.
Qed.

Ltac each_rule k :=
  let H := fresh "Hcase" in
  assert (H : k = 1 \/ k = 2 \/ k = 3 \/ k = 4 \/ k = 5 \/ k = 6 \/ k = 7
              \/ k = 8 \/ k = 9 \/ k = 10 \/ k = 11 \/ k = 12) by lia;
  repeat (destruct H as [H|H]); subst k.

(** No two rules produce the same SQL.  The text of rule 9 differs from the
    others within its first 95 characters, before the threshold. *)
Lemma rule_sql_inj query k j :
  1 <= k <= 12 -> 1 <= j <= 12 -> rule_sql k query = rule_sql j query -> k = j.
Proof.
  intros Hk Hj H. pose proof (f_equal (Py.take 95) H) as H95.
  each_rule k; each_rule j;
    first [ reflexivity
          | vm_compute in H95; discriminate H95
          | vm_compute in H; discriminate H ].
Qed.

Lemma rule_holds_nonempty k query : rule_holds k query = true -> query <> "".
Proof.
  intros H ->. do 13 (destruct k as [|k]; [discriminate H|]). discriminate H.
Qed.

Lemma generate_sql_predefined w q sql :
  predefined_sql (Py.lower q) = Some sql -> Py.lower q <> "" ->
  generate_sql w (Some q) = execute_sql w (Py.lower q) sql.
Proof.
  intros Hsql Hne. unfold generate_sql, resolve_sql. simpl.
  destruct (decide (Py.lower q = "")) as [He|_]; [done|].
  rewrite Hsql. simpl. by destruct (execute_sql _ _ _).
Qed.

(** C1. A question whose lowercased form satisfies rule k and no rule before
    k is resolved to the SQL of rule k, and that is what the handler sends to
    the database.  Once some rule holds, the SQL of a later rule is never the
    answer; so a question that satisfies rules 2 and 6 is not answered by
    rule 6, and is answered by rule 2 unless rule 1 holds as well. *)
Theorem C1_first_matching_rule_wins (w : world) (q : string) :
  (forall k, 1 <= k <= 12 ->
     rule_holds k (Py.lower q) = true ->
     (forall i, 1 <= i < k -> rule_holds i (Py.lower q) = false) ->
     predefined_sql (Py.lower q) = Some (rule_sql k (Py.lower q))
     /\ generate_sql w (Some q) = execute_sql w (Py.lower q) (rule_sql k (Py.lower q)))
  /\ (forall i j, 1 <= i -> i < j -> j <= 12 ->
        rule_holds i (Py.lower q) = true ->
        predefined_sql (Py.lower q) <> Some (rule_sql j (Py.lower q)))
  /\ (rule_holds 2 (Py.lower q) = true -> rule_holds 6 (Py.lower q) = true ->
        predefined_sql (Py.lower q) <> Some sql_overdue_pending
        /\ (rule_holds 1 (Py.lower q) = false ->
            predefined_sql (Py.lower q) = Some sql_top_vendors)).
Proof.
  set (query := Py.lower q).
  assert (Hfirst : forall k, 1 <= k <= 12 -> rule_holds k query = true ->
            (forall i, 1 <= i < k -> rule_holds i query = false) ->
            predefined_sql query = Some (rule_sql k query)).
  { intros k Hk Hholds Hbefore.
    destruct (predefined_sql_first query) as [(k' & Hk' & Hh' & Hb' & ->)|[Hnone _]].
    - destruct (Nat.lt_trichotomy k k') as [Hlt|[->|Hgt]]; [|done|].
      + rewrite Hb' in Hholds by lia. discriminate.
      + rewrite Hbefore in Hh' by lia. discriminate.
    - rewrite Hnone in Hholds by lia. discriminate. }
  assert (Hlater : forall i j, 1 <= i -> i < j -> j <= 12 ->
            rule_holds i query = true ->
            predefined_sql query <> Some (rule_sql j query)).
  { intros i j Hi Hij Hj Hholds.
    destruct (predefined_sql_first query) as [(k & Hk & Hh & Hb & ->)|[Hnone _]].
    - intros [= Heq]. apply rule_sql_inj in Heq; [|lia..]. subst k.
      rewrite Hb in Hholds by lia. discriminate.
    - rewrite Hnone in Hholds by lia. discriminate. }
  split; [|split].
  - intros k Hk Hholds Hbefore. split; [by apply Hfirst|].
    apply generate_sql_predefined; [by apply Hfirst|].
    by apply (rule_holds_nonempty k).
  - exact Hlater.
  - intros H2 H6. split.
    + apply (Hlater 2 6); [lia..|done].
    + intros H1. apply (Hfirst 2); [lia|done|].
      intros i Hi. by replace i with 1 by lia.
Qed.

Lemma C1_first_matching_rule_wins_witness :
  predefined_sql (Py.lower "Top vendors with PENDING invoices")
    = Some sql_top_vendors
  /\ generate_sql world_up (Some "Top vendors with PENDING invoices")
     = execute_sql world_up "top vendors with pending invoices" sql_top_vendors.
Proof.
  destruct (C1_first_matching_rule_wins world_up "Top vendors with PENDING invoices")
    as (H & _ & _).
  apply (H 2); [lia | reflexivity |].
  intros i Hi. replace i with 1 by lia. reflexivity.
Defined.

(** ** Facts about the effects *)

Lemma bind_returns {A B} (t : list event) (a : A) (k : A -> M B) :
  ((t, Returns a) ≫= k) = (t ++ trace (k a), result (k a)).
Proof. unfold mbind, M_bind, trace, result. by destruct (k a). Qed.

Lemma bind_raises {A B} (t : list event) (msg : string) (k : A -> M B) :
  ((t, Raises msg) ≫= k) = (t, Raises msg).
Proof. reflexivity. Qed.


(** Step 3 always hands a response back: every exception is caught. *)
Lemma execute_sql_returns w query sql :
  exists resp, result (execute_sql w query sql) = Returns resp
               /\ r_query resp = Some query /\ r_sql resp = Some sql.
Proof.
  unfold execute_sql, get_db, call, columns_of.
  destruct (db_connect w) as [[]|?]; [|by eexists].
  destruct (db_cursor w) as [[]|?]; [|by eexists].
  destruct (db_execute w sql) as [[]|?]; [|by eexists].
  destruct (db_fetchall w sql) as [rows|?]; [|by eexists].
  destruct (db_description w sql) as [columns|]; [|by eexists].
  destruct (db_cursor_close w) as [[]|?]; [|by eexists].
  destruct (db_conn_close w) as [[]|?]; by eexists.
Qed.

Lemma execute_sql_no_groq w query sql :
  filter is_groq (trace (execute_sql w query sql)) = [].
Proof.
  unfold execute_sql, get_db, call, columns_of.
  destruct (db_connect w) as [[]|?]; [|done].
  destruct (db_cursor w) as [[]|?]; [|done].
  destruct (db_execute w sql) as [[]|?]; [|done].
  destruct (db_fetchall w sql) as [rows|?]; [|done].
  destruct (db_description w sql) as [columns|]; [|done].
  destruct (db_cursor_close w) as [[]|?]; [|done].
  destruct (db_conn_close w) as [[]|?]; done.
Qed.


(** The handler once the query is known not to be empty. *)
Lemma generate_sql_nonempty w q :
  Py.lower q <> "" ->
  generate_sql w (Some q) =
    (resolve_sql w (Py.lower q) ≫= fun resolved =>
       match resolved with
       | inl early => mret early
       | inr sql => execute_sql w (Py.lower q) sql
       end).
Proof.
  intros Hne. unfold generate_sql. simpl.
  by destruct (decide (Py.lower q = "")).
Qed.

(** ** Substrings *)

Lemma app_cons c a b : String c a +:+ b = String c (a +:+ b).
Proof. reflexivity. Qed.

Lemma app_nil_l s : "" +:+ s = s.
Proof. reflexivity. Qed.

Lemma startswith_app p s : Py.startswith p (p +:+ s) = true.
Proof.
  induction p as [|a p IH]; simpl; [reflexivity|].
  by destruct (ascii_dec a a).
Qed.

Lemma startswith_app_l p a b :
  Py.startswith p a = true -> Py.startswith p (a +:+ b) = true.
Proof.
  revert a. induction p as [|c p IH]; intros [|d a] H; simpl in *; try done.
  destruct (ascii_dec c d); [by apply IH | done].
Qed.

Lemma contains_app_l x a b :
  Py.contains x a = true -> Py.contains x (a +:+ b) = true.
Proof.
  induction a as [|c a IH]; simpl; intros H.
  - rewrite orb_false_r in H. apply startswith_nonempty in H. subst x.
    by destruct b.
  - apply orb_true_iff in H as [H|H].
    + apply (startswith_app_l _ (String c a) b) in H.
      rewrite app_cons in H. by rewrite H.
    + rewrite (IH H). apply orb_true_r.
Qed.

Lemma contains_app_r x a b :
  Py.contains x b = true -> Py.contains x (a +:+ b) = true.
Proof.
  intros H. induction a as [|c a IH]; [done|].
  rewrite app_cons. simpl. rewrite IH. apply orb_true_r.
Qed.

Lemma contains_here x s : Py.contains x (x +:+ s) = true.
Proof.
  destruct (x +:+ s) eqn:E; simpl; rewrite <- E, startswith_app; done.
Qed.

Lemma contains_middle x a b : Py.contains x (a +:+ x +:+ b) = true.
Proof. apply contains_app_r, contains_here. Qed.

(** ** Empty and whitespace-only questions *)






(** ** Letter case *)

Lemma generate_sql_lower w q :
  generate_sql w (Some (Py.lower q)) = generate_sql w (Some q).
Proof. unfold generate_sql. simpl. by rewrite lower_idem. Qed.

(** C9. The handler answers a question and its lowercased form alike, in
    every world; both sample questions are resolved by rule 1. *)
Theorem C9_case_insensitive (w : world) (q : string) :
  generate_sql w (Some (Py.lower q)) = generate_sql w (Some q)
  /\ predefined_sql (Py.lower (Py.lower q)) = predefined_sql (Py.lower q)
  /\ predefined_sql (Py.lower "TOTAL SPEND in last 90 days") = Some sql_total_spend_90
  /\ predefined_sql (Py.lower "total spend 90") = Some sql_total_spend_90.
Proof.
  split; [apply generate_sql_lower|].
  split; [by rewrite lower_idem|].
  split; reflexivity.
Qed.

(** Two spellings of one question that differ in letter case only get the
    same answer. *)
Corollary same_letters_same_answer w q1 q2 :
  Py.lower q1 = Py.lower q2 -> generate_sql w (Some q1) = generate_sql w (Some q2).
Proof.
  intros H. by rewrite <- (generate_sql_lower w q1), <- (generate_sql_lower w q2), H.
Qed.

(** ** Step 3 in detail *)

Lemma execute_sql_success w query sql rows columns :
  execution_succeeds w sql rows columns ->
  execute_sql w query sql =
    ([EvConnect; EvCursor; EvExecute sql; EvFetchall; EvCursorClose; EvConnClose],
     Returns (Response (Some query) (Some sql)
                (Some (map (dict_zip columns) rows)) None)).
Proof.
  intros (H1 & H2 & H3 & H4 & H5 & H6 & H7).
  unfold execute_sql, get_db, call, columns_of.
  by rewrite H1, H2, H3, H4, H5, H6, H7.
Qed.

Lemma execute_sql_failure w query sql msg :
  execution_fails w sql msg ->
  exists calls,
    execute_sql w query sql =
      (calls ++ [EvPrint SqlExecutionError msg],
       Returns (Response (Some query) (Some sql) None (Some msg)))
    /\ filter is_db calls = calls.
Proof.
  unfold execute_sql, get_db, call, columns_of.
  intros [msg' H1|msg' H1 H2|msg' H1 H2 H3|msg' H1 H2 H3 H4|rows H1 H2 H3 H4 H5
         |rows columns msg' H1 H2 H3 H4 H5 H6
         |rows columns msg' H1 H2 H3 H4 H5 H6 H7];
    rewrite ?H1, ?H2, ?H3, ?H4, ?H5, ?H6, ?H7; eexists; split; reflexivity.
Qed.

(** When the statement itself is rejected, neither close call is made. *)
Lemma execute_sql_rejected_statement w query sql msg :
  db_connect w = Returns tt -> db_cursor w = Returns tt ->
  db_execute w sql = Raises msg ->
  trace (execute_sql w query sql) =
    [EvConnect; EvCursor; EvExecute sql; EvPrint SqlExecutionError msg].
Proof.
  intros H1 H2 H3. unfold execute_sql, get_db, call. by rewrite H1, H2, H3.
Qed.

(** Once the query has been read from the body, no exception leaves the
    handler. *)
Lemma generate_sql_never_raises w body_query :
  exists resp, result (generate_sql w body_query) = Returns resp.
Proof.
  unfold generate_sql.
  destruct (decide (Py.lower (default "" body_query) = "")); [by eexists|].
  set (query := Py.lower (default "" body_query)).
  assert (Hres : exists r, result (resolve_sql w query) = Returns r).
  { unfold resolve_sql. destruct (predefined_sql query); [by eexists|].
    unfold groq_sql, call, first_content.
    destruct (groq_create w (prompt_of query)) as [[|[content|] rest]|msg];
      by eexists. }
  destruct Hres as (r & Hr).
  destruct (resolve_sql w query) as [t o]. simpl in Hr. subst o.
  rewrite bind_returns. simpl. destruct r as [early|sql]; [by eexists|].
  destruct (execute_sql_returns w query sql) as (resp & Hresp & _).
  by exists resp.
Qed.

(** ** Step 2 in detail *)

Lemma resolve_sql_fallback_fails w query msg :
  predefined_sql query = None ->
  groq_fails w (prompt_of query) msg ->
  resolve_sql w query =
    ([EvGroq groq_model [("user", prompt_of query)]; EvPrint GroqError msg],
     Returns (inl (Response (Some query) None None (Some msg)))).
Proof.
  intros Hnone Hfail. unfold resolve_sql, groq_sql, call, first_content.
  rewrite Hnone. destruct Hfail as [msg H|H|rest H]; by rewrite H.
Qed.

Lemma resolve_sql_fallback_trace w query :
  predefined_sql query = None ->
  filter is_groq (trace (resolve_sql w query))
  = [EvGroq groq_model [("user", prompt_of query)]].
Proof.
  intros Hnone. unfold resolve_sql, groq_sql, call, first_content.
  rewrite Hnone.
  by destruct (groq_create w (prompt_of query)) as [[|[content|] rest]|msg].
Qed.

Lemma prompt_of_split query :
  prompt_of query = prompt_head +:+ query +:+ prompt_tail.
Proof. reflexivity. Qed.

Lemma no_rule_no_predefined query :
  (forall k, 1 <= k <= 12 -> rule_holds k query = false) ->
  predefined_sql query = None.
Proof.
  intros Hnone.
  destruct (predefined_sql_first query) as [(k & Hk & Hh & _)|[_ H]]; [|done].
  rewrite Hnone in Hh by done. discriminate.
Qed.

(** ** Failures of the fallback and of the execution *)

(** C4, amended. When the chat-completion call fails on the fallback path,
    the handler makes that one call, logs the failure and returns the
    lowercased question with the failure message; the response carries no SQL
    and no result, and no database call is made. *)
Theorem C4_fallback_failure_reported (w : world) (q msg : string) :
  Py.lower q <> "" ->
  predefined_sql (Py.lower q) = None ->
  groq_fails w (prompt_of (Py.lower q)) msg ->
  generate_sql w (Some q) =
    ([EvGroq groq_model [("user", prompt_of (Py.lower q))]; EvPrint GroqError msg],
     Returns (Response (Some (Py.lower q)) None None (Some msg))).
Proof.
  intros Hne Hnone Hfail. rewrite generate_sql_nonempty by done.
  by rewrite (resolve_sql_fallback_fails _ _ msg).
Qed.

Lemma C4_fallback_failure_reported_witness :
  generate_sql world_groq_down (Some "Hello") =
    ([EvGroq groq_model [("user", prompt_of "hello")];
      EvPrint GroqError "Connection error."],
     Returns (Response (Some "hello") None None (Some "Connection error."))).
Proof.
  apply (C4_fallback_failure_reported world_groq_down "Hello" "Connection error.").
  - discriminate.
  - reflexivity.
  - apply groq_raises. reflexivity.
Defined.

(** C4 as stated fails: the question comes back lowercased, not as it was
    asked. *)
Lemma C4_question_not_echoed_verbatim :
  groq_fails world_groq_down (prompt_of (Py.lower "Hello")) "Connection error."
  /\ exists resp,
       result (generate_sql world_groq_down (Some "Hello")) = Returns resp
       /\ r_query resp = Some "hello"
       /\ r_query resp <> Some "Hello".
Proof.
  split; [by apply groq_raises|].
  eexists. split; [reflexivity|]. split; [reflexivity|]. discriminate.
Qed.

(** C5, amended. When running the resolved SQL fails, the handler returns a
    response with the lowercased question, the SQL that was tried and the
    error message, after logging the error; no exception leaves the
    handler. *)
Theorem C5_execution_failure_reported (w : world) (q sql msg : string) :
  Py.lower q <> "" ->
  result (resolve_sql w (Py.lower q)) = Returns (inr sql) ->
  execution_fails w sql msg ->
  result (generate_sql w (Some q)) =
    Returns (Response (Some (Py.lower q)) (Some sql) None (Some msg))
  /\ last (trace (generate_sql w (Some q))) = Some (EvPrint SqlExecutionError msg).
Proof.
  intros Hne Hres Hfail. rewrite generate_sql_nonempty by done.
  destruct (resolve_sql w (Py.lower q)) as [t o]. simpl in Hres. subst o.
  rewrite bind_returns. simpl.
  destruct (execute_sql_failure w (Py.lower q) sql msg Hfail) as (calls & -> & _).
  simpl. split; [reflexivity|].
  by rewrite app_assoc, last_snoc.
Qed.

Lemma C5_execution_failure_reported_witness :
  result (generate_sql world_execute_fails (Some "Top Vendors")) =
    Returns (Response (Some "top vendors") (Some sql_top_vendors) None
               (Some "syntax error at or near SELEC")).
Proof.
  apply (C5_execution_failure_reported world_execute_fails "Top Vendors"
           sql_top_vendors "syntax error at or near SELEC").
  - discriminate.
  - reflexivity.
  - by apply fails_execute.
Defined.

(** C5 as stated fails on the question: it is echoed lowercased. *)
Lemma C5_question_not_echoed_verbatim :
  execution_fails world_execute_fails sql_top_vendors "syntax error at or near SELEC"
  /\ exists resp,
       result (generate_sql world_execute_fails (Some "Top Vendors")) = Returns resp
       /\ r_sql resp = Some sql_top_vendors
       /\ r_query resp = Some "top vendors"
       /\ r_query resp <> Some "Top Vendors".
Proof.
  split; [by apply fails_execute|].
  eexists. split; [reflexivity|]. split; [reflexivity|].
  split; [reflexivity|]. discriminate.
Qed.

(** C6 at a failing input. The database rejects the statement of rule 2:
    the connection and the cursor were opened, and the handler returns
    without closing either.  On a successful run both are closed. *)
Theorem C6_failed_execution_closes_nothing :
  trace (generate_sql world_execute_fails (Some "top vendors")) =
    [EvConnect; EvCursor; EvExecute sql_top_vendors;
     EvPrint SqlExecutionError "syntax error at or near SELEC"]
  /\ filter is_close (trace (generate_sql world_execute_fails (Some "top vendors"))) = []
  /\ filter is_close (trace (generate_sql world_up (Some "top vendors")))
     = [EvCursorClose; EvConnClose].
Proof. repeat split; vm_compute; reflexivity. Qed.

(** ** The fallback prompt *)

(** C8, amended. For a non-empty question that satisfies no rule the
    handler calls the chat-completion service exactly once, with one
    user-role message; the prompt contains the lowercased question and the
    four table declarations. *)
Theorem C8_fallback_called_once (w : world) (q : string) :
  Py.lower q <> "" ->
  (forall k, 1 <= k <= 12 -> rule_holds k (Py.lower q) = false) ->
  filter is_groq (trace (generate_sql w (Some q)))
    = [EvGroq groq_model [("user", prompt_of (Py.lower q))]]
  /\ Py.contains (Py.lower q) (prompt_of (Py.lower q)) = true
  /\ Forall (fun d => Py.contains d (prompt_of (Py.lower q)) = true)
       schema_declarations.
Proof.
  intros Hne Hnone. apply no_rule_no_predefined in Hnone.
  split; [|split].
  - rewrite generate_sql_nonempty by done.
    pose proof (resolve_sql_fallback_trace w _ Hnone) as Ht.
    destruct (resolve_sql w (Py.lower q)) as [t [[early|sql]|msg]];
      simpl in Ht.
    + rewrite bind_returns. simpl. by rewrite app_nil_r.
    + rewrite bind_returns. simpl.
      by rewrite filter_app, Ht, execute_sql_no_groq.
    + by rewrite bind_raises.
  - rewrite prompt_of_split. apply contains_middle.
  - rewrite prompt_of_split.
    repeat constructor; by apply contains_app_l.
Qed.

Lemma C8_fallback_called_once_witness :
  filter is_groq (trace (generate_sql world_up (Some "Show Payments")))
  = [EvGroq groq_model [("user", prompt_of "show payments")]].
Proof.
  apply (C8_fallback_called_once world_up "Show Payments").
  - discriminate.
  - intros k Hk. each_rule k; reflexivity.
Defined.

(** C8 as stated fails twice over: the empty question satisfies no rule and
    the fallback is not called for it; and the prompt holds the question
    lowercased, so a question with capitals is not in it verbatim. *)
Lemma C8_empty_question_skips_fallback :
  (forall k, 1 <= k <= 12 -> rule_holds k (Py.lower "") = false)
  /\ filter is_groq (trace (generate_sql world_up (Some ""))) = []
  /\ (forall k, 1 <= k <= 12 -> rule_holds k (Py.lower "Show Payments") = false)
  /\ Py.contains "Show Payments" (prompt_of (Py.lower "Show Payments")) = false.
Proof.
  split; [intros k Hk; each_rule k; reflexivity|].
  split; [reflexivity|].
  split; [intros k Hk; each_rule k; reflexivity|].
  vm_compute; reflexivity.
Qed.

(** ** Records of the result set *)

(** After inserting the pairs of [l] from left to right, a key holds the
    value of its last pair in [l], or what it held before when [l] has no
    pair for it. *)
Lemma foldl_insert_lookup {V : Type} (l : list (string * V))
    (d : gmap string V) name v :
  foldl (fun d kv => <[kv.1 := kv.2]> d) d l !! name = Some v <->
    (exists i, l !! i = Some (name, v)
               /\ forall j v', i < j -> l !! j <> Some (name, v'))
    \/ (d !! name = Some v /\ forall j v', l !! j <> Some (name, v')).
Proof.
  induction l as [|[k x] l IH] using rev_ind.
  - simpl. split.
    + intros H. right. split; [done|]. intros j v'. by rewrite lookup_nil.
    + intros [(i & H & _)|[H _]]; [by rewrite lookup_nil in H | done].
  - rewrite foldl_app. simpl.
    destruct (decide (k = name)) as [->|Hne].
    + rewrite lookup_insert_eq. split.
      * intros [= ->]. left. exists (length l). split.
        { apply lookup_snoc_Some. by right. }
        intros j v' Hj Hl. apply lookup_snoc_Some in Hl as [[? _]|[? _]]; lia.
      * intros [(i & Hi & Hlast)|[_ Hnone]].
        { apply lookup_snoc_Some in Hi as [[Hlt _]|[_ [= ->]]]; [|done].
          exfalso. apply (Hlast (length l) x Hlt).
          apply lookup_snoc_Some. by right. }
        exfalso. apply (Hnone (length l) x).
        apply lookup_snoc_Some. by right.
    + rewrite lookup_insert_ne by done. rewrite IH. split.
      * intros [(i & Hi & Hlast)|[Hd Hnone]].
        { left. exists i. split.
          - apply lookup_snoc_Some. left. split; [|done].
            by apply lookup_lt_Some in Hi.
          - intros j v' Hj Hl.
            apply lookup_snoc_Some in Hl as [[_ Hl]|[_ [= -> _]]]; [|done].
            by apply (Hlast j v'). }
        right. split; [done|]. intros j v' Hl.
        apply lookup_snoc_Some in Hl as [[_ Hl]|[_ [= -> _]]]; [|done].
        by apply (Hnone j v').
      * intros [(i & Hi & Hlast)|[Hd Hnone]].
        { left. exists i.
          apply lookup_snoc_Some in Hi as [[Hlt Hi]|[_ [= -> _]]]; [|done].
          split; [done|]. intros j v' Hj Hl.
          apply (Hlast j v' Hj). apply lookup_snoc_Some. left.
          split; [|done]. by apply lookup_lt_Some in Hl. }
        right. split; [done|]. intros j v' Hl.
        apply (Hnone j v'). apply lookup_snoc_Some. left.
        split; [|done]. by apply lookup_lt_Some in Hl.
Qed.

Lemma dict_zip_lookup columns row name v :
  dict_zip columns row !! name = Some v <->
    exists i, columns !! i = Some name /\ row !! i = Some v
              /\ forall j, i < j -> columns !! j = Some name -> row !! j = None.
Proof.
  unfold dict_zip, dict. rewrite foldl_insert_lookup. split.
  - intros [(i & Hi & Hlast)|[Hd _]]; [|by rewrite lookup_empty in Hd].
    apply lookup_zip_with_Some in Hi as (k & x & [= <- <-] & Hk & Hx).
    exists i. split; [done|]. split; [done|].
    intros j Hj Hcol. destruct (row !! j) as [v'|] eqn:Hrow; [|done].
    exfalso. apply (Hlast j v' Hj).
    apply lookup_zip_with_Some. by exists name, v'.
  - intros (i & Hk & Hx & Hlast). left. exists i. split.
    + apply lookup_zip_with_Some. by exists name, v.
    + intros j v' Hj Hl.
      apply lookup_zip_with_Some in Hl as (k & x & [= <- <-] & Hk' & Hx').
      rewrite (Hlast j Hj Hk') in Hx'. done.
Qed.

Lemma dict_zip_shorter columns row :
  let n := length columns `min` length row in
  dict_zip columns row = dict_zip (take n columns) (take n row).
Proof.
  intros n. unfold dict_zip. f_equal.
  rewrite <- zip_with_take. symmetry. apply take_ge.
  rewrite length_zip_with. lia.
Qed.

(** C10. On a successful run every record is [dict_zip] of the column names
    and the row.  In such a record a column name holds the cell under the
    last column of that name that the row reaches, and the columns and cells
    beyond the shorter of the two lists play no part. *)
Theorem C10_records_zip_columns (columns : list string) (row : list cell) :
  (forall name v,
     dict_zip columns row !! name = Some v <->
       exists i, columns !! i = Some name /\ row !! i = Some v
                 /\ forall j, i < j -> columns !! j = Some name -> row !! j = None)
  /\ dict_zip columns row =
       dict_zip (take (length columns `min` length row) columns)
                (take (length columns `min` length row) row)
  /\ (forall w q sql rows,
        Py.lower q <> "" ->
        result (resolve_sql w (Py.lower q)) = Returns (inr sql) ->
        execution_succeeds w sql rows columns ->
        result (generate_sql w (Some q)) =
          Returns (Response (Some (Py.lower q)) (Some sql)
                     (Some (map (dict_zip columns) rows)) None)).
Proof.
  split; [apply dict_zip_lookup|]. split; [apply dict_zip_shorter|].
  intros w q sql rows Hne Hres Hok. rewrite generate_sql_nonempty by done.
  destruct (resolve_sql w (Py.lower q)) as [t o]. simpl in Hres. subst o.
  rewrite bind_returns. simpl.
  by rewrite (execute_sql_success _ _ _ rows columns).
Qed.

Lemma C10_records_zip_columns_witness :
  dict_zip ["id"; "total"; "id"] [CInt 1; CInt 2; CInt 3] !! "id" = Some (CInt 3)
  /\ result (generate_sql world_up (Some "top vendors")) =
       Returns (Response (Some "top vendors") (Some sql_top_vendors)
                  (Some [dict_zip ["id"; "status"] [CInt 7; CStr "paid"]]) None).
Proof.
  split.
  - apply (proj1 (C10_records_zip_columns ["id"; "total"; "id"]
                    [CInt 1; CInt 2; CInt 3])).
    exists 2. split; [reflexivity|]. split; [reflexivity|].
    intros j Hj _. destruct j as [|[|[|j]]]; [lia..|reflexivity].
  - apply (proj2 (proj2 (C10_records_zip_columns ["id"; "status"]
                           [CInt 7; CStr "paid"]))
             world_up "top vendors" sql_top_vendors [[CInt 7; CStr "paid"]]).
    + discriminate.
    + reflexivity.
    + repeat split.
Defined.

(** A duplicated column keeps the later cell; a short row leaves the extra
    columns out; a long row loses its extra cells. *)
Example dict_zip_duplicate_column :
  dict_zip ["a"; "b"; "a"] [CInt 1; CInt 2; CInt 3]
  = {[ "a" := CInt 3; "b" := CInt 2 ]}.
Proof. by vm_compute. Qed.

Example dict_zip_short_row :
  dict_zip ["a"; "b"; "c"] [CInt 1; CInt 2] = dict_zip ["a"; "b"] [CInt 1; CInt 2].
Proof. reflexivity. Qed.

Example dict_zip_long_row :
  dict_zip ["a"] [CInt 1; CInt 2] = {[ "a" := CInt 1 ]}.
Proof. by vm_compute. Qed.

(** ** Cleaning the fallback output *)

#[local] Arguments ascii_dec : simpl never.

Lemma drop_length_le n s : String.length (Py.drop n s) <= String.length s.
Proof.
  revert s. induction n as [|n IH]; intros [|c t]; simpl; try lia.
  specialize (IH t). lia.
Qed.

Lemma replace_from_skip old new k s :
  Py.replace_from old new k s = Py.replace_from old new 0 (Py.drop k s).
Proof.
  revert k. induction s as [|c t IH]; intros [|k]; try reflexivity.
  simpl. apply IH.
Qed.

Lemma replace_from_cons old new c t :
  Py.replace_from old new 0 (String c t) =
    if Py.startswith old (String c t)
    then new +:+ Py.replace_from old new (String.length old - 1) t
    else String c (Py.replace_from old new 0 t).
Proof. reflexivity. Qed.

(** Deleting every fence, one step at a time. *)
Lemma delete_fence_cons c t :
  Py.replace fence "" (String c t) =
    if Py.startswith fence (String c t)
    then Py.replace fence "" (Py.drop 2 t)
    else String c (Py.replace fence "" t).
Proof.
  change (Py.replace fence "" (String c t))
    with (Py.replace_from fence "" 0 (String c t)).
  rewrite replace_from_cons.
  destruct (Py.startswith fence (String c t)); [|reflexivity].
  rewrite app_nil_l. apply replace_from_skip.
Qed.

Lemma startswith_backtick c t :
  Py.startswith "`" (String c t) = if ascii_dec "`" c then true else false.
Proof. reflexivity. Qed.

Lemma startswith_backtick2 c t :
  Py.startswith "``" (String c t)
  = if ascii_dec "`" c then Py.startswith "`" t else false.
Proof. reflexivity. Qed.

Lemma startswith_fence c t :
  Py.startswith fence (String c t)
  = if ascii_dec "`" c then Py.startswith "``" t else false.
Proof. reflexivity. Qed.

(** What is left starts with a backtick only if the input did, with two
    only if the input did, and never with a fence. *)
Lemma delete_fence_head s :
  Py.startswith "`" s = false ->
  Py.startswith "`" (Py.replace fence "" s) = false.
Proof.
  destruct s as [|c t]; [done|]. rewrite delete_fence_cons, startswith_fence.
  rewrite startswith_backtick.
  destruct (ascii_dec "`" c); [done|]. intros _.
  rewrite startswith_backtick. by destruct (ascii_dec "`" c).
Qed.

Lemma delete_fence_head2 s :
  Py.startswith "``" s = false ->
  Py.startswith "``" (Py.replace fence "" s) = false.
Proof.
  destruct s as [|c t]; [done|]. rewrite delete_fence_cons, startswith_fence.
  rewrite startswith_backtick2.
  destruct (ascii_dec "`" c) as [Hc|Hc].
  - intros Ht. assert (H2 : Py.startswith "``" t = false).
    { destruct t as [|d u]; [done|].
      rewrite startswith_backtick in Ht. rewrite startswith_backtick2.
      by destruct (ascii_dec "`" d). }
    rewrite H2, startswith_backtick2.
    destruct (ascii_dec "`" c); [|done]. by apply delete_fence_head.
  - intros _. rewrite startswith_backtick2. by destruct (ascii_dec "`" c).
Qed.

Lemma delete_fence_no_fence s :
  Py.contains fence (Py.replace fence "" s) = false.
Proof.
  remember (String.length s) as n eqn:Hn. revert s Hn.
  induction n as [n IH] using lt_wf_ind. intros [|c t] Hn; [reflexivity|].
  rewrite delete_fence_cons.
  destruct (Py.startswith fence (String c t)) eqn:Hs.
  - apply (IH (String.length (Py.drop 2 t))); [|reflexivity].
    subst n. pose proof (drop_length_le 2 t) as Hd.
    change (String.length (String c t)) with (S (String.length t)). lia.
  - assert (Ht : Py.contains fence (Py.replace fence "" t) = false).
    { apply (IH (String.length t)); [subst n; simpl; lia | reflexivity]. }
    change (Py.contains fence (String c (Py.replace fence "" t)))
      with (Py.startswith fence (String c (Py.replace fence "" t))
            || Py.contains fence (Py.replace fence "" t)).
    rewrite Ht, orb_false_r.
    rewrite startswith_fence in *.
    destruct (ascii_dec "`" c); [|done]. by apply delete_fence_head2.
Qed.

(** *** Stripping *)

Lemma contains_cons p c t :
  Py.contains p (String c t) = Py.startswith p (String c t) || Py.contains p t.
Proof. reflexivity. Qed.

Lemma rstrip_cons_nonspace c t :
  Py.is_space c = false -> Py.rstrip (String c t) = String c (Py.rstrip t).
Proof. intros H. simpl. destruct (Py.rstrip t); by rewrite ?H. Qed.

Lemma rstrip_cons_nonempty c t :
  Py.rstrip t <> "" -> Py.rstrip (String c t) = String c (Py.rstrip t).
Proof. intros H. simpl. by destruct (Py.rstrip t). Qed.

(** [lstrip] leaves a suffix, [rstrip] a prefix. *)
Lemma lstrip_suffix s : exists l, s = l +:+ Py.lstrip s.
Proof.
  induction s as [|c t [l IH]]; [by exists ""|]. simpl.
  destruct (Py.is_space c); [|by exists ""].
  exists (String c l). rewrite app_cons. by f_equal.
Qed.

Lemma rstrip_prefix s : exists r, s = Py.rstrip s +:+ r.
Proof.
  induction s as [|c t [r IH]]; [by exists ""|]. simpl.
  destruct (Py.rstrip t) as [|d u] eqn:E.
  - destruct (Py.is_space c); [by exists (String c t)|].
    exists t. reflexivity.
  - exists r. rewrite app_cons. by f_equal.
Qed.

Lemma strip_contains p s :
  Py.contains p (Py.strip s) = true -> Py.contains p s = true.
Proof.
  unfold Py.strip. intros H.
  destruct (lstrip_suffix s) as [l Hl].
  destruct (rstrip_prefix (Py.lstrip s)) as [r Hr].
  rewrite Hl. apply contains_app_r. rewrite Hr. by apply contains_app_l.
Qed.

Lemma lstrip_keeps p c p' s :
  p = String c p' -> Py.is_space c = false ->
  Py.contains p s = true -> Py.contains p (Py.lstrip s) = true.
Proof.
  intros -> Hc. induction s as [|d t IH]; [done|]. simpl Py.lstrip.
  destruct (Py.is_space d) eqn:Hd; [|done].
  rewrite contains_cons. intros H. apply IH.
  apply orb_true_iff in H as [H|H]; [|done].
  simpl in H. destruct (ascii_dec c d) as [->|]; [congruence|done].
Qed.

Lemma rstrip_keeps_start p s :
  no_space p = true -> Py.startswith p s = true ->
  Py.startswith p (Py.rstrip s) = true.
Proof.
  revert s. induction p as [|c p IH]; intros s Hp Hs; [done|].
  destruct s as [|d t]; [done|]. simpl in Hp, Hs.
  apply andb_true_iff in Hp as [Hc Hp]. apply negb_true_iff in Hc.
  destruct (ascii_dec c d) as [<-|]; [|done].
  rewrite rstrip_cons_nonspace by done. simpl.
  destruct (ascii_dec c c); [|done]. by apply IH.
Qed.

Lemma rstrip_keeps p s :
  p <> "" -> no_space p = true ->
  Py.contains p s = true -> Py.contains p (Py.rstrip s) = true.
Proof.
  intros Hne Hp. induction s as [|c t IH].
  - by rewrite contains_empty_hay.
  - rewrite contains_cons. intros H.
    destruct (Py.contains p t) eqn:Ht.
    + specialize (IH eq_refl).
      rewrite rstrip_cons_nonempty.
      * rewrite contains_cons, IH. apply orb_true_r.
      * intros E. rewrite E, contains_empty_hay in IH; done.
    + rewrite orb_false_r in H.
      apply (rstrip_keeps_start p) in H; [|done].
      destruct (Py.rstrip (String c t)) as [|d u]; [by destruct p|].
      by rewrite contains_cons, H.
Qed.

Lemma strip_keeps_fence s :
  Py.contains fence s = true -> Py.contains fence (Py.strip s) = true.
Proof.
  intros H. unfold Py.strip. apply rstrip_keeps; [done|reflexivity|].
  by apply (lstrip_keeps fence "`"%char "``").
Qed.

Lemma rstrip_idem s : Py.rstrip (Py.rstrip s) = Py.rstrip s.
Proof.
  induction s as [|c t IH]; [reflexivity|]. simpl.
  destruct (Py.rstrip t) as [|d u] eqn:E.
  - destruct (Py.is_space c) eqn:Hc; [reflexivity|]. simpl. by rewrite Hc.
  - rewrite rstrip_cons_nonempty; rewrite IH; [reflexivity|done].
Qed.

Lemma lstrip_rstrip_lstrip s :
  Py.lstrip (Py.rstrip (Py.lstrip s)) = Py.rstrip (Py.lstrip s).
Proof.
  induction s as [|c t IH]; [reflexivity|]. simpl Py.lstrip at 2 3.
  destruct (Py.is_space c) eqn:Hc; [done|].
  rewrite rstrip_cons_nonspace by done. simpl. by rewrite Hc.
Qed.

Lemma strip_idem s : Py.strip (Py.strip s) = Py.strip s.
Proof. unfold Py.strip. by rewrite lstrip_rstrip_lstrip, rstrip_idem. Qed.

(** C7. When the text returned by the model contains a fence, the SQL that
    is kept is the text stripped, with every fence that opens an sql block
    and then every remaining fence deleted, and stripped again.  It contains
    no fence any more and has no whitespace at either end, and it is the SQL
    that Step 2 hands over for execution.  The sample reply is cleaned to the
    bare statement. *)
Theorem C7_fences_removed (content : string) :
  Py.contains fence content = true ->
  clean_sql content
    = Py.strip (Py.replace fence "" (Py.replace fence_sql "" (Py.strip content)))
  /\ Py.contains fence (clean_sql content) = false
  /\ Py.strip (clean_sql content) = clean_sql content
  /\ clean_sql (fence_sql +:+ nl +:+ "SELECT 1;" +:+ nl +:+ fence) = "SELECT 1;"
  /\ (forall w query rest,
        predefined_sql query = None ->
        groq_create w (prompt_of query) = Returns (Some content :: rest) ->
        resolve_sql w query =
          ([EvGroq groq_model [("user", prompt_of query)]],
           Returns (inr (clean_sql content)))).
Proof.
  intros Hfence. apply strip_keeps_fence in Hfence.
  assert (Hclean : clean_sql content
            = Py.strip (Py.replace fence "" (Py.replace fence_sql "" (Py.strip content)))).
  { unfold clean_sql. by rewrite Hfence. }
  split; [done|]. split; [|split; [|split]].
  - rewrite Hclean. apply not_true_iff_false. intros E.
    apply strip_contains in E. by rewrite delete_fence_no_fence in E.
  - rewrite Hclean. apply strip_idem.
  - by vm_compute.
  - intros w query rest Hnone Hreply.
    unfold resolve_sql, groq_sql, call, first_content.
    by rewrite Hnone, Hreply.
Qed.

Lemma C7_fences_removed_witness :
  Py.contains fence (clean_sql (fence_sql +:+ nl +:+ "SELECT 1;" +:+ nl +:+ fence))
  = false.
Proof.
  apply (C7_fences_removed (fence_sql +:+ nl +:+ "SELECT 1;" +:+ nl +:+ fence)).
  reflexivity.
Defined.

(** Only the lowercase tag is known: another tag stays in the SQL. *)
Example clean_sql_other_tag :
  clean_sql (fence +:+ "postgresql" +:+ nl +:+ "SELECT 1;" +:+ nl +:+ fence)
  = "postgresql" +:+ nl +:+ "SELECT 1;".
Proof. by vm_compute. Qed.

(** ** The threshold of rule 9 *)

Lemma is_digit_word c : Py.is_digit c = true -> Py.is_word c = true.
Proof. each_char c; intros H; first [reflexivity | discriminate H]. Qed.

Lemma length_app a b :
  String.length (a +:+ b) = String.length a + String.length b.
Proof. induction a as [|c a IH]; [reflexivity|]. rewrite app_cons. simpl. lia. Qed.

Lemma app_inv_length a a' b b' :
  String.length a = String.length a' -> a +:+ b = a' +:+ b' -> a = a' /\ b = b'.
Proof.
  revert a'. induction a as [|c a IH]; intros [|c' a'] Hlen H; try done.
  rewrite !app_cons in H. injection H as -> H. simpl in Hlen.
  destruct (IH a') as [-> ->]; [lia|done|done].
Qed.

Lemma take_app_length g post : Py.take (String.length g) (g +:+ post) = g.
Proof. induction g as [|c g IH]; simpl; [reflexivity|]. rewrite ?app_cons. simpl. by f_equal. Qed.

Lemma drop_app_length g post : Py.drop (String.length g) (g +:+ post) = post.
Proof. induction g as [|c g IH]; simpl; [reflexivity|]. by rewrite ?app_cons. Qed.

Lemma take_drop n s : s = Py.take n s +:+ Py.drop n s.
Proof.
  revert s. induction n as [|n IH]; intros [|c t]; try reflexivity.
  simpl. rewrite ?app_cons. by f_equal.
Qed.

(** *** The digits at a position *)

Lemma digit_run_le limit s : Re.digit_run limit s <= limit.
Proof.
  revert s. induction limit as [|l IH]; intros [|c t]; simpl; try lia.
  destruct (Py.is_digit c); [|lia]. specialize (IH t). lia.
Qed.

Lemma digit_run_take limit s :
  all_digits (Py.take (Re.digit_run limit s) s) = true
  /\ String.length (Py.take (Re.digit_run limit s) s) = Re.digit_run limit s.
Proof.
  revert s. induction limit as [|l IH]; intros [|c t]; simpl; try done.
  destruct (Py.is_digit c) eqn:Hc; [|done]. simpl. rewrite Hc.
  destruct (IH t) as [-> ->]. done.
Qed.

Lemma digit_run_app limit g post :
  all_digits g = true -> String.length g <= limit ->
  starts_with_word post = false ->
  Re.digit_run limit (g +:+ post) = String.length g.
Proof.
  revert limit. induction g as [|c g IH]; intros limit Hg Hlen Hpost.
  - rewrite app_nil_l. simpl. destruct limit, post as [|d u]; try reflexivity.
    simpl in *. destruct (Py.is_digit d) eqn:Hd; [|reflexivity].
    apply is_digit_word in Hd. congruence.
  - simpl in Hg, Hlen. apply andb_true_iff in Hg as [Hc Hg].
    destruct limit as [|l]; [lia|]. rewrite ?app_cons. simpl. rewrite Hc.
    f_equal. apply IH; [done|lia|done].
Qed.

(** Inside a run of digits there is no word boundary. *)
Lemma no_boundary_inside limit s m :
  m < Re.digit_run limit s -> Re.at_boundary true (Py.drop m s) = false.
Proof.
  revert limit s. induction m as [|m IH]; intros [|l] [|c t] H;
    simpl in H; try lia; destruct (Py.is_digit c) eqn:Hc; try lia.
  - simpl. unfold Re.at_boundary. by rewrite (is_digit_word c Hc).
  - simpl. apply (IH l). lia.
Qed.

Lemma backtrack_unfold n s :
  Re.backtrack n s =
    if (n <? 3) then None
    else if Re.at_boundary true (Py.drop n s) then Some (Py.take n s)
    else match n with O => None | S n' => Re.backtrack n' s end.
Proof. by destruct n. Qed.

Lemma backtrack_inside limit s n :
  n < Re.digit_run limit s -> Re.backtrack n s = None.
Proof.
  induction n as [|n IH]; intros H; rewrite backtrack_unfold.
  - reflexivity.
  - rewrite (no_boundary_inside limit) by done.
    destruct (S n <? 3); [reflexivity|]. apply IH. lia.
Qed.

#[local] Arguments Re.digit_run : simpl never.

(** The greedy matcher either takes the whole run of digits or fails. *)
Lemma match_here_run prev s :
  Re.match_here prev s =
    if Re.at_boundary prev s && negb (Re.digit_run 6 s <? 3)
       && Re.at_boundary true (Py.drop (Re.digit_run 6 s) s)
    then Some (Py.take (Re.digit_run 6 s) s) else None.
Proof.
  unfold Re.match_here. destruct (Re.at_boundary prev s); [|reflexivity].
  rewrite backtrack_unfold. simpl.
  destruct (Re.digit_run 6 s <? 3) eqn:E3; [reflexivity|]. simpl.
  destruct (Re.at_boundary true _); [reflexivity|].
  destruct (Re.digit_run 6 s) as [|n] eqn:E; [reflexivity|].
  apply (backtrack_inside 6). lia.
Qed.

Lemma starts_with_digit_boundary prev s :
  0 < Re.digit_run 6 s -> Re.at_boundary prev s = negb prev.
Proof.
  destruct s as [|c t]; unfold Re.digit_run; [lia|].
  destruct (Py.is_digit c) eqn:Hc; [|lia]. intros _.
  unfold Re.at_boundary. rewrite (is_digit_word c Hc). by destruct prev.
Qed.

Lemma boundary_after post :
  Re.at_boundary true post = negb (starts_with_word post).
Proof. unfold Re.at_boundary, starts_with_word. by destruct post as [|c u]; [|destruct (Py.is_word c)]. Qed.

Lemma match_here_sound prev s g :
  Re.match_here prev s = Some g ->
  exists post, s = g +:+ post /\ standalone_after prev "" g post.
Proof.
  rewrite match_here_run.
  destruct (Re.at_boundary prev s) eqn:Hb; [|done].
  destruct (Re.digit_run 6 s <? 3) eqn:E3; [done|]. apply Nat.ltb_ge in E3.
  destruct (Re.at_boundary true _) eqn:Ha; [|done]. simpl. intros [= <-].
  exists (Py.drop (Re.digit_run 6 s) s). split; [apply take_drop|].
  destruct (digit_run_take 6 s) as [Hd Hl].
  pose proof (digit_run_le 6 s).
  rewrite starts_with_digit_boundary in Hb by lia.
  rewrite boundary_after in Ha.
  repeat split; try done; try lia.
  - simpl. by destruct prev.
  - by destruct (starts_with_word _).
Qed.

Lemma match_here_complete prev g post :
  standalone_after prev "" g post ->
  Re.match_here prev (g +:+ post) = Some g.
Proof.
  intros (Hd & Hlen & Hprev & Hpost). simpl in Hprev. subst prev.
  rewrite match_here_run, (digit_run_app 6) by (done || lia).
  rewrite starts_with_digit_boundary by (rewrite (digit_run_app 6); done || lia).
  rewrite drop_app_length, take_app_length, boundary_after, Hpost.
  simpl. destruct (String.length g <? 3) eqn:E; [|done].
  apply Nat.ltb_lt in E. lia.
Qed.

(** *** The leftmost match *)

Lemma search_from_unfold prev s :
  Re.search_from prev s =
    match Re.match_here prev s with
    | Some g => Some g
    | None =>
        match s with
        | EmptyString => None
        | String c t => Re.search_from (Py.is_word c) t
        end
    end.
Proof. by destruct s. Qed.

(** A decomposition of [String c t] either starts at the first character or
    is a decomposition of [t]. *)
Lemma split_cons c t pre g post :
  String c t = pre +:+ g +:+ post ->
  (pre = "" /\ String c t = g +:+ post)
  \/ (exists pre', pre = String c pre' /\ t = pre' +:+ g +:+ post).
Proof.
  destruct pre as [|d pre']; [by left|]. rewrite app_cons.
  intros [= -> ->]. right. by exists pre'.
Qed.

Lemma search_from_spec s prev :
  match Re.search_from prev s with
  | Some g =>
      exists pre post,
        s = pre +:+ g +:+ post /\ standalone_after prev pre g post
        /\ forall pre' g' post',
             s = pre' +:+ g' +:+ post' -> standalone_after prev pre' g' post' ->
             String.length pre <= String.length pre'
  | None =>
      forall pre g post,
        s = pre +:+ g +:+ post -> ~ standalone_after prev pre g post
  end.
Proof.
  revert prev. induction s as [|c t IH]; intros prev; rewrite search_from_unfold.
  - destruct (Re.match_here prev "") as [g|] eqn:E.
    + apply match_here_sound in E as (post & Hs & Hst).
      exists "", post. split; [exact Hs|]. split; [exact Hst|].
      intros; simpl; lia.
    + intros pre g post Hs (_ & Hlen & _).
      apply (f_equal String.length) in Hs. rewrite !length_app in Hs.
      simpl in Hs. lia.
  - destruct (Re.match_here prev (String c t)) as [g|] eqn:E.
    + apply match_here_sound in E as (post & Hs & Hst).
      exists "", post. split; [exact Hs|]. split; [exact Hst|].
      intros; simpl; lia.
    + specialize (IH (Py.is_word c)).
      destruct (Re.search_from (Py.is_word c) t) as [g|].
      * destruct IH as (pre & post & Ht & Hst & Hmin).
        exists (String c pre), post. split; [by rewrite app_cons, Ht|].
        split; [exact Hst|].
        intros pre' g' post' Hs' Hst'.
        apply split_cons in Hs' as [[-> Hs']|(pre'' & -> & Ht')].
        -- apply match_here_complete in Hst'. rewrite <- Hs' in Hst'. congruence.
        -- specialize (Hmin pre'' g' post' Ht' Hst'). simpl. lia.
      * intros pre g post Hs Hst.
        apply split_cons in Hs as [[-> Hs]|(pre' & -> & Ht)].
        -- apply match_here_complete in Hst. rewrite <- Hs in Hst. congruence.
        -- by apply (IH pre' g post).
Qed.

(** A first standalone number is the only one at its place. *)
Lemma standalone_same_place prev pre pre' g g' post post' :
  pre +:+ g +:+ post = pre' +:+ g' +:+ post' ->
  String.length pre = String.length pre' ->
  standalone_after prev pre g post -> standalone_after prev pre' g' post' ->
  g = g'.
Proof.
  intros Hs Hlen (Hd & Hl & _ & Hp) (Hd' & Hl' & _ & Hp').
  apply app_inv_length in Hs as [_ Hs]; [|done].
  assert (Hrun : String.length g = String.length g').
  { rewrite <- (digit_run_app 6 g post), <- (digit_run_app 6 g' post'), Hs;
      done || lia. }
  by apply app_inv_length in Hs as [-> _].
Qed.

(** The threshold is a first standalone number of the text that is
    searched, or 1000 when that text has none. *)
Lemma threshold_of_cases q :
  (exists pre post,
     q = pre +:+ threshold_of q +:+ post
     /\ standalone pre (threshold_of q) post
     /\ forall pre' num' post',
          q = pre' +:+ num' +:+ post' -> standalone pre' num' post' ->
          String.length pre <= String.length pre')
  \/ (threshold_of q = "1000"
      /\ forall pre num post,
           q = pre +:+ num +:+ post -> ~ standalone pre num post).
Proof.
  unfold threshold_of, Re.search_amount, standalone.
  pose proof (search_from_spec q false) as H.
  destruct (Re.search_from false q) as [g|]; [by left | by right].
Qed.

Lemma rule_first_resolves query k :
  1 <= k <= 12 -> rule_holds k query = true ->
  (forall i, 1 <= i < k -> rule_holds i query = false) ->
  predefined_sql query = Some (rule_sql k query).
Proof.
  intros Hk Hholds Hbefore.
  destruct (predefined_sql_first query) as [(k' & Hk' & Hh' & Hb' & ->)|[Hnone _]].
  - destruct (Nat.lt_trichotomy k k') as [Hlt|[->|Hgt]]; [|done|].
    + rewrite Hb' in Hholds by lia. discriminate.
    + rewrite Hbefore in Hh' by lia. discriminate.
  - rewrite Hnone in Hholds by lia. discriminate.
Qed.

(** ** The threshold over the wider alphabet *)

(** The characters of the wider alphabet are distinct code points, and the
    lowercase form of U+0130 is U+0069 U+0307. *)
Lemma wide_code_inj c c' : Wide.code c = Wide.code c' -> c = c'.
Proof.
  assert (Hlatin : forall a, (Py.code a < 256)%N)
    by (intros a; apply N_ascii_bounded).
  destruct c as [a| | |d], c' as [a'| | |d']; simpl; intros H;
    try pose proof (Hlatin a); try pose proof (Hlatin a');
    try destruct d; try destruct d'; simpl in H; try done; try lia.
  f_equal. unfold Py.code in H.
  by rewrite <- (ascii_N_embedding a), <- (ascii_N_embedding a'), H.
Qed.

Lemma wide_lower_capital_i_dot :
  Wide.code <$> Wide.lower [Wide.CapitalIDot] = [105; 775]%N.
Proof. reflexivity. Qed.

Lemma wide_is_digit_word c : Wide.is_digit c = true -> Wide.is_word c = true.
Proof. destruct c as [a| | |d]; simpl; try done. apply is_digit_word. Qed.

Lemma wide_digit_run_le limit s : Wide.digit_run limit s <= limit.
Proof.
  revert s. induction limit as [|l IH]; intros [|c t]; simpl; try lia.
  destruct (Wide.is_digit c); [|lia]. specialize (IH t). lia.
Qed.

Lemma wide_digit_run_take limit s :
  Wide.all_digits (take (Wide.digit_run limit s) s) = true
  /\ length (take (Wide.digit_run limit s) s) = Wide.digit_run limit s.
Proof.
  revert s. induction limit as [|l IH]; intros [|c t]; simpl; try done.
  destruct (Wide.is_digit c) eqn:Hc; [|done]. simpl. rewrite Hc.
  destruct (IH t) as [-> ->]. done.
Qed.

Lemma wide_digit_run_app limit g post :
  Wide.all_digits g = true -> length g <= limit ->
  Wide.starts_with_word post = false ->
  Wide.digit_run limit (g ++ post) = length g.
Proof.
  revert limit. induction g as [|c g IH]; intros limit Hg Hlen Hpost.
  - simpl. destruct limit, post as [|d u]; try reflexivity.
    simpl in *. destruct (Wide.is_digit d) eqn:Hd; [|reflexivity].
    apply wide_is_digit_word in Hd. congruence.
  - simpl in Hg, Hlen. apply andb_true_iff in Hg as [Hc Hg].
    destruct limit as [|l]; [lia|]. simpl. rewrite Hc.
    f_equal. apply IH; [done|lia|done].
Qed.

Lemma wide_no_boundary_inside limit s m :
  m < Wide.digit_run limit s -> Wide.at_boundary true (drop m s) = false.
Proof.
  revert limit s. induction m as [|m IH]; intros [|l] [|c t] H;
    simpl in H; try lia; destruct (Wide.is_digit c) eqn:Hc; try lia.
  - simpl. unfold Wide.at_boundary. by rewrite (wide_is_digit_word c Hc).
  - simpl. apply (IH l). lia.
Qed.

Lemma wide_backtrack_unfold n s :
  Wide.backtrack n s =
    if (n <? 3) then None
    else if Wide.at_boundary true (drop n s) then Some (take n s)
    else match n with O => None | S n' => Wide.backtrack n' s end.
Proof. by destruct n. Qed.

Lemma wide_backtrack_inside limit s n :
  n < Wide.digit_run limit s -> Wide.backtrack n s = None.
Proof.
  induction n as [|n IH]; intros H; rewrite wide_backtrack_unfold.
  - reflexivity.
  - rewrite (wide_no_boundary_inside limit) by done.
    destruct (S n <? 3); [reflexivity|]. apply IH. lia.
Qed.

#[local] Arguments Wide.digit_run : simpl never.

Lemma wide_match_here_run prev s :
  Wide.match_here prev s =
    if Wide.at_boundary prev s && negb (Wide.digit_run 6 s <? 3)
       && Wide.at_boundary true (drop (Wide.digit_run 6 s) s)
    then Some (take (Wide.digit_run 6 s) s) else None.
Proof.
  unfold Wide.match_here. destruct (Wide.at_boundary prev s); [|reflexivity].
  rewrite wide_backtrack_unfold. simpl.
  destruct (Wide.digit_run 6 s <? 3) eqn:E3; [reflexivity|]. simpl.
  destruct (Wide.at_boundary true _); [reflexivity|].
  destruct (Wide.digit_run 6 s) as [|n] eqn:E; [reflexivity|].
  apply (wide_backtrack_inside 6). lia.
Qed.

Lemma wide_starts_with_digit_boundary prev s :
  0 < Wide.digit_run 6 s -> Wide.at_boundary prev s = negb prev.
Proof.
  destruct s as [|c t]; unfold Wide.digit_run; [lia|].
  destruct (Wide.is_digit c) eqn:Hc; [|lia]. intros _.
  unfold Wide.at_boundary. rewrite (wide_is_digit_word c Hc). by destruct prev.
Qed.

Lemma wide_boundary_after post :
  Wide.at_boundary true post = negb (Wide.starts_with_word post).
Proof.
  unfold Wide.at_boundary, Wide.starts_with_word.
  by destruct post as [|c u]; [|destruct (Wide.is_word c)].
Qed.

Lemma wide_match_here_sound prev s g :
  Wide.match_here prev s = Some g ->
  exists post, s = g ++ post /\ Wide.standalone_after prev [] g post.
Proof.
  rewrite wide_match_here_run.
  destruct (Wide.at_boundary prev s) eqn:Hb; [|done].
  destruct (Wide.digit_run 6 s <? 3) eqn:E3; [done|]. apply Nat.ltb_ge in E3.
  destruct (Wide.at_boundary true _) eqn:Ha; [|done]. simpl. intros [= <-].
  exists (drop (Wide.digit_run 6 s) s).
  split; [symmetry; apply list.take_drop|].
  destruct (wide_digit_run_take 6 s) as [Hd Hl].
  pose proof (wide_digit_run_le 6 s).
  rewrite wide_starts_with_digit_boundary in Hb by lia.
  rewrite wide_boundary_after in Ha.
  repeat split; try done; try lia.
  - simpl. by destruct prev.
  - by destruct (Wide.starts_with_word _).
Qed.

Lemma wide_match_here_complete prev g post :
  Wide.standalone_after prev [] g post ->
  Wide.match_here prev (g ++ post) = Some g.
Proof.
  intros (Hd & Hlen & Hprev & Hpost). simpl in Hprev. subst prev.
  rewrite wide_match_here_run, (wide_digit_run_app 6) by (done || lia).
  rewrite wide_starts_with_digit_boundary
    by (rewrite (wide_digit_run_app 6); done || lia).
  rewrite list.drop_app_length, list.take_app_length,
    wide_boundary_after, Hpost.
  simpl. destruct (length g <? 3) eqn:E; [|done].
  apply Nat.ltb_lt in E. lia.
Qed.

Lemma wide_search_from_unfold prev s :
  Wide.search_from prev s =
    match Wide.match_here prev s with
    | Some g => Some g
    | None =>
        match s with
        | [] => None
        | c :: t => Wide.search_from (Wide.is_word c) t
        end
    end.
Proof. by destruct s. Qed.

Lemma wide_split_cons (c : Wide.char) t pre g post :
  c :: t = pre ++ g ++ post ->
  (pre = [] /\ c :: t = g ++ post)
  \/ (exists pre', pre = c :: pre' /\ t = pre' ++ g ++ post).
Proof.
  destruct pre as [|d pre']; [by left|].
  intros [= -> ->]. right. by exists pre'.
Qed.

Lemma wide_search_from_spec s prev :
  match Wide.search_from prev s with
  | Some g =>
      exists pre post,
        s = pre ++ g ++ post /\ Wide.standalone_after prev pre g post
        /\ forall pre' g' post',
             s = pre' ++ g' ++ post' -> Wide.standalone_after prev pre' g' post' ->
             length pre <= length pre'
  | None =>
      forall pre g post,
        s = pre ++ g ++ post -> ~ Wide.standalone_after prev pre g post
  end.
Proof.
  revert prev. induction s as [|c t IH]; intros prev;
    rewrite wide_search_from_unfold.
  - destruct (Wide.match_here prev []) as [g|] eqn:E.
    + apply wide_match_here_sound in E as (post & Hs & Hst).
      exists [], post. split; [exact Hs|]. split; [exact Hst|].
      intros; simpl; lia.
    + intros pre g post Hs (_ & Hlen & _).
      apply (f_equal length) in Hs. rewrite !List.length_app in Hs.
      simpl in Hs. lia.
  - destruct (Wide.match_here prev (c :: t)) as [g|] eqn:E.
    + apply wide_match_here_sound in E as (post & Hs & Hst).
      exists [], post. split; [exact Hs|]. split; [exact Hst|].
      intros; simpl; lia.
    + specialize (IH (Wide.is_word c)).
      destruct (Wide.search_from (Wide.is_word c) t) as [g|].
      * destruct IH as (pre & post & Ht & Hst & Hmin).
        exists (c :: pre), post. split; [by rewrite Ht|].
        split; [exact Hst|].
        intros pre' g' post' Hs' Hst'.
        apply wide_split_cons in Hs' as [[-> Hs']|(pre'' & -> & Ht')].
        -- apply wide_match_here_complete in Hst'. rewrite <- Hs' in Hst'.
           congruence.
        -- specialize (Hmin pre'' g' post' Ht' Hst'). simpl. lia.
      * intros pre g post Hs Hst.
        apply wide_split_cons in Hs as [[-> Hs]|(pre' & -> & Ht)].
        -- apply wide_match_here_complete in Hst. rewrite <- Hs in Hst.
           congruence.
        -- by apply (IH pre' g post).
Qed.

Lemma wide_standalone_same_place prev pre pre' g g' post post' :
  pre ++ g ++ post = pre' ++ g' ++ post' ->
  length pre = length pre' ->
  Wide.standalone_after prev pre g post ->
  Wide.standalone_after prev pre' g' post' ->
  g = g'.
Proof.
  intros Hs Hlen (Hd & Hl & _ & Hp) (Hd' & Hl' & _ & Hp').
  apply app_inj_1 in Hs as [_ Hs]; [|done].
  assert (Hrun : length g = length g').
  { rewrite <- (wide_digit_run_app 6 g post), <- (wide_digit_run_app 6 g' post'), Hs;
      done || lia. }
  by apply app_inj_1 in Hs as [-> _].
Qed.

(** Over the wider alphabet too the threshold is a first standalone number
    of the text that is searched, or 1000 when that text has none. *)
Lemma wide_threshold_of_cases query :
  (exists pre post,
     query = pre ++ Wide.threshold_of query ++ post
     /\ Wide.standalone pre (Wide.threshold_of query) post
     /\ forall pre' num' post',
          query = pre' ++ num' ++ post' -> Wide.standalone pre' num' post' ->
          length pre <= length pre')
  \/ (Wide.threshold_of query = Wide.of_string "1000"
      /\ forall pre num post,
           query = pre ++ num ++ post -> ~ Wide.standalone pre num post).
Proof.
  unfold Wide.threshold_of, Wide.search_amount, Wide.standalone.
  pose proof (wide_search_from_spec query false) as H.
  destruct (Wide.search_from false query) as [g|]; [by left | by right].
Qed.

Lemma wide_threshold_first query pre num post :
  query = pre ++ num ++ post -> Wide.standalone pre num post ->
  (forall pre' num' post',
     query = pre' ++ num' ++ post' -> Wide.standalone pre' num' post' ->
     length pre <= length pre') ->
  Wide.threshold_of query = num.
Proof.
  intros Hq Hst Hmin.
  destruct (wide_threshold_of_cases query)
    as [(pre0 & post0 & Hq0 & Hst0 & Hmin0)|[_ Hnone]].
  - symmetry. apply (wide_standalone_same_place false pre pre0 _ _ post post0);
      [congruence| |done|done].
    apply Nat.le_antisymm;
      [by apply (Hmin pre0 (Wide.threshold_of query) post0)
      |by apply (Hmin0 pre num post)].
  - by destruct (Hnone pre num post).
Qed.

Lemma wide_threshold_default query :
  (forall pre num post,
     query = pre ++ num ++ post -> ~ Wide.standalone pre num post) ->
  Wide.threshold_of query = Wide.of_string "1000".
Proof.
  intros Hnone.
  destruct (wide_threshold_of_cases query)
    as [(pre0 & post0 & Hq0 & Hst0 & _)|[H _]]; [|done].
  by destruct (Hnone pre0 (Wide.threshold_of query) post0).
Qed.

(** *** The two alphabets agree on U+0000-U+00FF *)

Lemma wide_of_string_cons c t :
  Wide.of_string (String c t) = Wide.Latin1 c :: Wide.of_string t.
Proof. reflexivity. Qed.

Lemma wide_of_string_app a b :
  Wide.of_string (a +:+ b) = Wide.of_string a ++ Wide.of_string b.
Proof. induction a as [|c a IH]; [done|]. rewrite app_cons, !wide_of_string_cons, IH. done. Qed.

Lemma wide_of_string_inj a b : Wide.of_string a = Wide.of_string b -> a = b.
Proof.
  revert b. induction a as [|c a IH]; intros [|d b] H; try done.
  rewrite !wide_of_string_cons in H. injection H as -> H. by rewrite (IH b).
Qed.

Lemma wide_lower_of_string s :
  Wide.lower (Wide.of_string s) = Wide.of_string (Py.lower s).
Proof. induction s as [|c t IH]; [done|]. rewrite wide_of_string_cons. simpl. by rewrite IH. Qed.

Lemma wide_take_of_string n s :
  take n (Wide.of_string s) = Wide.of_string (Py.take n s).
Proof.
  revert s. induction n as [|n IH]; intros [|c t]; try done.
  rewrite wide_of_string_cons. simpl. by rewrite IH.
Qed.

Lemma wide_drop_of_string n s :
  drop n (Wide.of_string s) = Wide.of_string (Py.drop n s).
Proof.
  revert s. induction n as [|n IH]; intros [|c t]; try done.
  rewrite wide_of_string_cons. simpl. by rewrite IH.
Qed.

Lemma wide_at_boundary_of_string prev s :
  Wide.at_boundary prev (Wide.of_string s) = Re.at_boundary prev s.
Proof. by destruct s. Qed.

Lemma wide_digit_run_of_string limit s :
  Wide.digit_run limit (Wide.of_string s) = Re.digit_run limit s.
Proof.
  unfold Wide.digit_run, Re.digit_run.
  revert s. induction limit as [|l IH]; intros [|c t]; try done.
  rewrite wide_of_string_cons. simpl. by rewrite IH.
Qed.

Lemma wide_match_here_of_string prev s :
  Wide.match_here prev (Wide.of_string s)
  = Wide.of_string <$> Re.match_here prev s.
Proof.
  rewrite wide_match_here_run, match_here_run, wide_at_boundary_of_string,
    wide_digit_run_of_string, wide_drop_of_string, wide_take_of_string,
    wide_at_boundary_of_string.
  by destruct (_ && _ && _).
Qed.

Lemma wide_search_from_of_string prev s :
  Wide.search_from prev (Wide.of_string s)
  = Wide.of_string <$> Re.search_from prev s.
Proof.
  revert prev. induction s as [|c t IH]; intros prev;
    rewrite wide_search_from_unfold, search_from_unfold,
      wide_match_here_of_string.
  - by destruct (Re.match_here prev "").
  - destruct (Re.match_here prev (String c t)); [done|].
    rewrite wide_of_string_cons. simpl. apply IH.
Qed.

Lemma wide_threshold_of_string s :
  Wide.threshold_of (Wide.of_string s) = Wide.of_string (threshold_of s).
Proof.
  unfold Wide.threshold_of, threshold_of, Wide.search_amount, Re.search_amount.
  rewrite wide_search_from_of_string. by destruct (Re.search_from false s).
Qed.

(** *** The claim *)

(** C3, amended. The number is looked for in the lowercased question, the
    text the pattern runs on: the threshold is the first standalone number
    of three to six digits of the lowercased question, and 1000 when the
    lowercased question has no such number; when rule 9 is the first rule
    that holds, the handler runs the SQL of rule 9 with that threshold.  The
    two sample questions give 5000 and 1000.  The same holds over the wider
    alphabet, where a digit is any character of the class of decimal digits,
    and the two alphabets agree on U+0000-U+00FF. *)
Theorem C3_threshold_extraction (q : string) :
  (forall pre num post,
     Py.lower q = pre +:+ num +:+ post -> standalone pre num post ->
     (forall pre' num' post',
        Py.lower q = pre' +:+ num' +:+ post' -> standalone pre' num' post' ->
        String.length pre <= String.length pre') ->
     threshold_of (Py.lower q) = num)
  /\ ((forall pre num post,
         Py.lower q = pre +:+ num +:+ post -> ~ standalone pre num post) ->
      threshold_of (Py.lower q) = "1000")
  /\ (forall w,
        rule_holds 9 (Py.lower q) = true ->
        (forall i, 1 <= i < 9 -> rule_holds i (Py.lower q) = false) ->
        generate_sql w (Some q) =
          execute_sql w (Py.lower q)
            (sql_above_head +:+ threshold_of (Py.lower q) +:+ sql_above_tail))
  /\ predefined_sql (Py.lower "invoices above 5000") = Some (sql_above "5000")
  /\ predefined_sql (Py.lower "invoices above") = Some (sql_above "1000")
  /\ (forall u : list Wide.char,
        (forall pre num post,
           Wide.lower u = pre ++ num ++ post -> Wide.standalone pre num post ->
           (forall pre' num' post',
              Wide.lower u = pre' ++ num' ++ post' ->
              Wide.standalone pre' num' post' ->
              length pre <= length pre') ->
           Wide.threshold_of (Wide.lower u) = num)
        /\ ((forall pre num post,
               Wide.lower u = pre ++ num ++ post ->
               ~ Wide.standalone pre num post) ->
            Wide.threshold_of (Wide.lower u) = Wide.of_string "1000"))
  /\ Wide.threshold_of (Wide.lower (Wide.of_string q))
     = Wide.of_string (threshold_of (Py.lower q)).
Proof.
  split; [|split; [|split; [|split; [|split; [|split]]]]].
  - intros pre num post Hq Hst Hmin.
    destruct (threshold_of_cases (Py.lower q))
      as [(pre0 & post0 & Hq0 & Hst0 & Hmin0)|[_ Hnone]].
    + symmetry. apply (standalone_same_place false pre pre0 _ _ post post0);
        [congruence| |done|done].
      apply Nat.le_antisymm;
        [by apply (Hmin pre0 (threshold_of (Py.lower q)) post0)
        |by apply (Hmin0 pre num post)].
    + by destruct (Hnone pre num post).
  - intros Hnone.
    destruct (threshold_of_cases (Py.lower q))
      as [(pre0 & post0 & Hq0 & Hst0 & _)|[H _]]; [|done].
    by destruct (Hnone pre0 (threshold_of (Py.lower q)) post0).
  - intros w H9 Hbefore.
    apply generate_sql_predefined; [|by apply (rule_holds_nonempty 9)].
    by apply (rule_first_resolves _ 9); [lia| |].
  - reflexivity.
  - reflexivity.
  - intros u. split; [apply wide_threshold_first | apply wide_threshold_default].
  - by rewrite wide_lower_of_string, wide_threshold_of_string.
Qed.

Lemma C3_threshold_extraction_witness :
  threshold_of (Py.lower "Invoices above 5000 or 70000") = "5000".
Proof.
  apply (proj1 (C3_threshold_extraction "Invoices above 5000 or 70000")
           "invoices above " "5000" " or 70000").
  - reflexivity.
  - repeat split; simpl; lia.
  - intros pre' num' post' Hq (Hd & Hlen & Hpre & Hpost).
    change (Py.lower "Invoices above 5000 or 70000")
      with "invoices above 5000 or 70000" in Hq.
    destruct (Nat.le_gt_cases 15 (String.length pre')) as [Hle|Hlt]; [exact Hle|].
    exfalso.
    do 15 (destruct pre' as [|? pre'];
           [ do 7 (destruct num' as [|? num']; [simpl in Hlen; try lia; try (simpl in Hq, Hd; injection Hq as ?; subst; discriminate Hd)|]); simpl in Hlen; lia
           | rewrite app_cons in Hq; injection Hq as <- Hq; simpl in Hpre ]).
    simpl in Hlt. lia.
Defined.

(** C3 as stated fails.  In this question the number follows a capital I
    with dot above, a letter, so the question as asked has no standalone
    number and the claim gives 1000.  Lowercasing turns that letter into an
    i and a combining dot, which is not a word character: the number now
    stands alone, rule 9 holds, no earlier rule does, and 500 is written
    into the SQL. *)
Lemma C3_lowercasing_makes_a_number_standalone :
  (forall pre num post,
     question_dotted_I = pre ++ num ++ post -> ~ Wide.standalone pre num post)
  /\ Wide.rule9_holds (Wide.lower question_dotted_I) = true
  /\ Forall (fun keyword =>
       Wide.contains (Wide.of_string keyword) (Wide.lower question_dotted_I)
       = false) earlier_keywords
  /\ Wide.threshold_of (Wide.lower question_dotted_I) = Wide.of_string "500"
  /\ Wide.sql_above (Wide.threshold_of (Wide.lower question_dotted_I))
     = Wide.of_string (sql_above "500")
  /\ Wide.of_string "500" <> Wide.of_string "1000".
Proof.
  split.
  { pose proof (wide_search_from_spec question_dotted_I false) as H.
    assert (E : Wide.search_from false question_dotted_I = None)
      by (vm_compute; reflexivity).
    rewrite E in H. exact H. }
  split; [vm_compute; reflexivity|].
  split; [repeat constructor|].
  split; [vm_compute; reflexivity|].
  split; [vm_compute; reflexivity|].
  discriminate.
Qed.

(** * Further properties of the handler *)

(** ** Every way a request can go *)

(** Step 3 either goes through all six database calls, or stops after the
    call that raised and logs the error. *)
Lemma execute_sql_cases w query sql :
  (exists rows columns,
     execution_succeeds w sql rows columns
     /\ execute_sql w query sql =
          (db_calls sql,
           Returns (Response (Some query) (Some sql)
                      (Some (map (dict_zip columns) rows)) None)))
  \/ (exists msg n,
        execution_fails w sql msg /\ 1 <= n <= 6
        /\ execute_sql w query sql =
             (take n (db_calls sql) ++ [EvPrint SqlExecutionError msg],
              Returns (Response (Some query) (Some sql) None (Some msg)))).
Proof.
  unfold execute_sql, get_db, call, columns_of.
  destruct (db_connect w) as [[]|m] eqn:H1;
    [|right; exists m, 1; split; [by apply fails_connect|]; split; [lia|done]].
  destruct (db_cursor w) as [[]|m] eqn:H2;
    [|right; exists m, 2; split; [by apply fails_cursor|]; split; [lia|done]].
  destruct (db_execute w sql) as [[]|m] eqn:H3;
    [|right; exists m, 3; split; [by apply fails_execute|]; split; [lia|done]].
  destruct (db_fetchall w sql) as [rows|m] eqn:H4;
    [|right; exists m, 4; split; [by apply fails_fetchall|]; split; [lia|done]].
  destruct (db_description w sql) as [columns|] eqn:H5;
    [|right; eexists _, 4; split; [by eapply fails_description|]; split; [lia|done]].
  destruct (db_cursor_close w) as [[]|m] eqn:H6;
    [|right; exists m, 5; split; [by eapply fails_cursor_close|]; split; [lia|done]].
  destruct (db_conn_close w) as [[]|m] eqn:H7;
    [|right; exists m, 6; split; [by eapply fails_conn_close|]; split; [lia|done]].
  left. exists rows, columns. split; [done|]. reflexivity.
Qed.

(** Steps 1 and 2 either take the SQL of a rule without any call, or ask the
    model once and keep its cleaned reply, or ask once, log the failure and
    give up. *)
Lemma resolve_sql_cases w query :
  (exists sql, predefined_sql query = Some sql
               /\ resolve_sql w query = ([], Returns (inr sql)))
  \/ (exists content rest,
        predefined_sql query = None
        /\ groq_create w (prompt_of query) = Returns (Some content :: rest)
        /\ resolve_sql w query =
             ([EvGroq groq_model [("user", prompt_of query)]],
              Returns (inr (clean_sql content))))
  \/ (exists msg,
        predefined_sql query = None
        /\ groq_fails w (prompt_of query) msg
        /\ resolve_sql w query =
             ([EvGroq groq_model [("user", prompt_of query)];
               EvPrint GroqError msg],
              Returns (inl (Response (Some query) None None (Some msg))))).
Proof.
  unfold resolve_sql, groq_sql, call, first_content.
  destruct (predefined_sql query) as [sql|]; [left; by exists sql|].
  right.
  destruct (groq_create w (prompt_of query)) as [[|[content|] rest]|msg] eqn:E.
  - right. eexists. split; [done|]. split; [by apply groq_no_choice|done].
  - left. by exists content, rest.
  - right. eexists. split; [done|]. split; [by eapply groq_null_content|done].
  - right. exists msg. split; [done|]. split; [by apply groq_raises|done].
Qed.

Lemma generate_sql_outcome_of w body_query :
  outcome_of w (Py.lower (default "" body_query)) (generate_sql w body_query).
Proof.
  unfold generate_sql. set (query := Py.lower (default "" body_query)).
  destruct (decide (query = "")) as [He|Hne]; [by apply no_query|].
  destruct (resolve_sql_cases w query)
    as [(sql & Hpre & Hres)|[(content & rest & Hpre & Hg & Hres)|(msg & Hpre & Hg & Hres)]].
  - rewrite Hres, bind_returns. simpl.
    destruct (execute_sql_cases w query sql)
      as [(rows & columns & Hok & ->)|(msg & n & Hfail & Hn & ->)]; simpl.
    + by apply (answered w query [] sql rows columns).
    + by apply (execution_failed w query [] sql msg n).
  - rewrite Hres, bind_returns. simpl.
    destruct (execute_sql_cases w query (clean_sql content))
      as [(rows & columns & Hok & ->)|(msg & n & Hfail & Hn & ->)]; simpl.
    + by apply (answered w query [_] _ rows columns).
    + by apply (execution_failed w query [_] _ msg n).
  - rewrite Hres, bind_returns. simpl. by apply fallback_failed.
Qed.

(** What Steps 1 and 2 have called when they hand over an SQL text. *)
Lemma resolve_sql_asked w query asked sql :
  resolve_sql w query = (asked, Returns (inr sql)) ->
  (asked = [] /\ predefined_sql query = Some sql)
  \/ (asked = [EvGroq groq_model [("user", prompt_of query)]]
      /\ predefined_sql query = None).
Proof.
  intros H.
  destruct (resolve_sql_cases w query)
    as [(sql' & Hpre & Hres)|[(content & rest & Hpre & Hg & Hres)|(msg & Hpre & Hg & Hres)]];
    rewrite Hres in H; injection H as <-; try done.
  - left. split; [done|]. congruence.
  - by right.
Qed.

Lemma resolve_sql_asked_quiet w query asked sql :
  resolve_sql w query = (asked, Returns (inr sql)) ->
  filter is_print asked = [] /\ filter is_execute asked = []
  /\ forall s, EvExecute s ∉ asked.
Proof.
  intros H. apply resolve_sql_asked in H as [[-> _]|[-> _]].
  - repeat split; try done. intros s Hs. by apply elem_of_nil in Hs.
  - repeat split; try done. intros s Hs.
    apply list_elem_of_singleton in Hs. discriminate Hs.
Qed.

Lemma take_db_calls n sql :
  filter is_print (take n (db_calls sql)) = []
  /\ filter is_groq (take n (db_calls sql)) = []
  /\ length (filter is_execute (take n (db_calls sql))) <= 1
  /\ forall s, EvExecute s ∈ take n (db_calls sql) -> s = sql.
Proof.
  split; [|split; [|split]].
  - by do 7 (destruct n as [|n]; [done|]).
  - by do 7 (destruct n as [|n]; [done|]).
  - do 7 (destruct n as [|n]; [simpl; lia|]). simpl. lia.
  - intros s Hs. apply subseteq_take in Hs. unfold db_calls in Hs.
    repeat (apply elem_of_cons in Hs as [Hs|Hs]; [by inversion Hs|]).
    by apply elem_of_nil in Hs.
Qed.

(** X1. A request whose body is a JSON object in which the query is absent
    ([body_query] is [None]) or a string ends in one of four ways, whatever
    the model and the database do: the no-query error with no call; a failed
    model call, logged, with the error; a database failure after one to six
    calls, logged, with the SQL and the error; or the six database calls and
    the records. *)
Theorem handler_outcomes (w : world) (body_query : option string) :
  outcome_of w (Py.lower (default "" body_query)) (generate_sql w body_query).
Proof. apply generate_sql_outcome_of. Qed.

(** The shape of a response, for a body whose query is absent or a
    string. *)
Lemma generate_sql_response_shape w body_query :
  exists resp,
    result (generate_sql w body_query) = Returns resp
    /\ (r_result resp = None <-> is_Some (r_error resp))
    /\ (is_Some (r_result resp) -> is_Some (r_sql resp))
    /\ (is_Some (r_sql resp) -> is_Some (r_query resp))
    /\ (forall query, r_query resp = Some query ->
          query = Py.lower (default "" body_query)).
Proof.
  destruct (generate_sql_outcome_of w body_query); eexists; (split; [reflexivity|]);
    simpl; repeat split; try (by intros [? [=]]); try (by intros [=]);
    try done; try (by eexists); by intros ? [= <-].
Qed.

(** The bodies that lines 36-37 get through: a JSON object in which the
    query is absent or a string. *)
Lemma post_generate_sql_accepts w request_json :
  (exists body_query,
     post_generate_sql w request_json = generate_sql w body_query
     /\ exists members,
          request_json = Returns (JObject members)
          /\ match body_query with
             | None => dict members !! "query" = None
             | Some s => dict members !! "query" = Some (JString s)
             end)
  \/ (exists msg,
        post_generate_sql w request_json = ([], Raises msg)
        /\ forall members,
             request_json = Returns (JObject members) ->
             dict members !! "query" <> None
             /\ forall s, dict members !! "query" <> Some (JString s)).
Proof.
  unfold post_generate_sql.
  destruct request_json as [body|msg]; [|right; exists msg; by split].
  rewrite bind_returns.
  assert (Hrun : forall m : M response, ([] ++ trace m, result m) = m)
    by (by intros [t o]).
  destruct body as [|b|z|bits|s|items|members];
    try (right; eexists; split; [reflexivity|]; by intros ? [=]).
  destruct (dict members !! "query") as [v|] eqn:E.
  - destruct v as [|b|z|bits|s|items|members'];
      try (right; eexists; split; [reflexivity|];
           intros ? [= <-]; rewrite E; split; [done|]; by intros ? [=]).
    left. exists (Some s). split; [apply Hrun|]. by exists members.
  - left. exists None. split; [apply Hrun|]. by exists members.
Qed.

(** X2. The endpoint returns a response exactly when the body parses to a
    JSON object in which the query is absent or a string; for any other
    body an exception leaves the handler before any outside call is made.
    In a response exactly one of the result and the error is present; a
    result comes with the SQL, the SQL with the question, and the question
    carried is the lowercased query of the body. *)
Theorem response_shape (w : world) (request_json : outcome json) :
  ((exists resp, result (post_generate_sql w request_json) = Returns resp) <->
   exists members,
     request_json = Returns (JObject members)
     /\ (dict members !! "query" = None
         \/ exists s, dict members !! "query" = Some (JString s)))
  /\ (forall msg,
        result (post_generate_sql w request_json) = Raises msg ->
        trace (post_generate_sql w request_json) = [])
  /\ (forall resp,
        result (post_generate_sql w request_json) = Returns resp ->
        (r_result resp = None <-> is_Some (r_error resp))
        /\ (is_Some (r_result resp) -> is_Some (r_sql resp))
        /\ (is_Some (r_sql resp) -> is_Some (r_query resp))
        /\ (forall query, r_query resp = Some query ->
              exists members s,
                request_json = Returns (JObject members)
                /\ dict members !! "query" = Some (JString s)
                /\ query = Py.lower s)).
Proof.
  destruct (post_generate_sql_accepts w request_json)
    as [(body_query & -> & members & Hreq & Hq)|(msg & -> & Hbad)].
  - destruct (generate_sql_response_shape w body_query)
      as (resp & Hresp & H1 & H2 & H3 & H4).
    split; [|split].
    + split; [intros _|intros _; by exists resp].
      exists members. split; [done|].
      destruct body_query as [s|]; [right; by exists s|by left].
    + intros msg Hmsg. rewrite Hresp in Hmsg. discriminate.
    + intros resp' Hresp'. rewrite Hresp in Hresp'. injection Hresp' as <-.
      split; [done|]. split; [done|]. split; [done|].
      intros query Hquery. specialize (H4 query Hquery).
      destruct body_query as [s|]; [by exists members, s|].
      exfalso. simpl in H4. subst query.
      destruct (generate_sql_outcome_of w None) as [He| | |];
        simpl in Hresp; injection Hresp as <-; try done; simpl in *; done.
  - split; [|split].
    + split; [by intros [resp [=]]|].
      intros (members & Hreq & Hq). destruct (Hbad members Hreq) as [Hn Hs].
      destruct Hq as [Hq|[s Hq]]; [done|by apply Hs in Hq].
    + done.
    + by intros resp [=].
Qed.

(** X3. The log gets one line exactly when the response carries an error
    together with the question; the no-query error and an answered request
    leave no line. *)
Theorem one_log_line_per_failure (w : world) (body_query : option string) :
  exists resp,
    result (generate_sql w body_query) = Returns resp
    /\ length (filter is_print (trace (generate_sql w body_query)))
       = match r_query resp, r_error resp with
         | Some _, Some _ => 1
         | _, _ => 0
         end.
Proof.
  destruct (generate_sql_outcome_of w body_query)
    as [|msg|asked sql msg n ? Hres|asked sql rows columns ? Hres];
    eexists; (split; [reflexivity|]); unfold trace; simpl; try done.
  - apply resolve_sql_asked_quiet in Hres as (Ha & _ & _).
    by rewrite !filter_app, Ha, (proj1 (take_db_calls n sql)).
  - apply resolve_sql_asked_quiet in Hres as (Ha & _ & _).
    by rewrite filter_app, Ha.
Qed.

(** X4. [cur.execute] is called at most once per request, and the text it
    is given is the text that the response reports as its SQL.  That text is
    not checked: it may hold several statements. *)
Theorem one_execute_call_per_request (w : world) (body_query : option string) :
  exists resp,
    result (generate_sql w body_query) = Returns resp
    /\ length (filter is_execute (trace (generate_sql w body_query))) <= 1
    /\ forall sql, EvExecute sql ∈ trace (generate_sql w body_query) ->
                   r_sql resp = Some sql.
Proof.
  destruct (generate_sql_outcome_of w body_query)
    as [|msg|asked sql msg n ? Hres|asked sql rows columns ? Hres];
    eexists; (split; [reflexivity|]); unfold trace; simpl.
  - split; [lia|]. intros s Hs. by apply elem_of_nil in Hs.
  - split; [lia|]. intros s Hs.
    repeat (apply elem_of_cons in Hs as [Hs|Hs]; [by inversion Hs|]).
    by apply elem_of_nil in Hs.
  - destruct (take_db_calls n sql) as (_ & _ & Hlen & Hin).
    apply resolve_sql_asked_quiet in Hres as (_ & Ha & Hno). split.
    + rewrite !filter_app, Ha, !List.length_app. simpl. lia.
    + intros s Hs. apply elem_of_app in Hs as [Hs|Hs]; [by apply Hno in Hs|].
      apply elem_of_app in Hs as [Hs|Hs]; [by rewrite (Hin s Hs)|].
      apply list_elem_of_singleton in Hs. discriminate Hs.
  - destruct (take_db_calls 6 sql) as (_ & _ & Hlen & Hin).
    apply resolve_sql_asked_quiet in Hres as (_ & Ha & Hno). split.
    + rewrite filter_app, Ha, List.length_app. simpl. lia.
    + intros s Hs. apply elem_of_app in Hs as [Hs|Hs]; [by apply Hno in Hs|].
      by rewrite (Hin s Hs).
Qed.

(** ** When the rules answer *)

Lemma predefined_sql_none query :
  predefined_sql query = None <->
  forall k, 1 <= k <= 12 -> rule_holds k query = false.
Proof.
  split; [|apply no_rule_no_predefined].
  intros Hnone k Hk.
  destruct (predefined_sql_first query) as [(k' & _ & _ & _ & H)|[H _]];
    [congruence | by apply H].
Qed.

Lemma predefined_sql_some query :
  is_Some (predefined_sql query) <->
  exists k, 1 <= k <= 12 /\ rule_holds k query = true.
Proof.
  split.
  - intros [sql Hsql].
    destruct (predefined_sql_first query) as [(k & Hk & Hh & _)|[_ H]];
      [by exists k | congruence].
  - intros (k & Hk & Hh). destruct (predefined_sql query) eqn:E; [done|].
    rewrite predefined_sql_none in E. rewrite E in Hh by done. discriminate.
Qed.

(** X5. The model is asked at most once per request, and it is not asked at
    all exactly when the question is empty or some rule holds for it. *)
Theorem model_consulted_iff (w : world) (body_query : option string) :
  length (filter is_groq (trace (generate_sql w body_query))) <= 1
  /\ (filter is_groq (trace (generate_sql w body_query)) = [] <->
      Py.lower (default "" body_query) = ""
      \/ exists k, 1 <= k <= 12
                   /\ rule_holds k (Py.lower (default "" body_query)) = true).
Proof.
  set (query := Py.lower (default "" body_query)).
  assert (Hcases :
    (filter is_groq (trace (generate_sql w body_query)) = []
     /\ (query = "" \/ is_Some (predefined_sql query)))
    \/ (filter is_groq (trace (generate_sql w body_query))
          = [EvGroq groq_model [("user", prompt_of query)]]
        /\ query <> "" /\ predefined_sql query = None)).
  { destruct (generate_sql_outcome_of w body_query)
      as [He|msg Hne Hpre|asked sql msg n Hne Hres|asked sql rows columns Hne Hres];
      fold query in Hne || fold query in He; unfold trace; simpl.
    - left. split; [done|by left].
    - right. by fold query in Hpre.
    - fold query in Hres. destruct (take_db_calls n sql) as (_ & Hg & _).
      apply resolve_sql_asked in Hres as [[-> Hpre]|[-> Hpre]];
        rewrite !filter_app, Hg; [left|right]; (split; [done|]).
      + right. by rewrite Hpre.
      + done.
    - fold query in Hres. destruct (take_db_calls 6 sql) as (_ & Hg & _).
      change (take 6 (db_calls sql)) with (db_calls sql) in Hg.
      apply resolve_sql_asked in Hres as [[-> Hpre]|[-> Hpre]];
        rewrite !filter_app, Hg; [left|right]; (split; [done|]).
      + right. by rewrite Hpre.
      + done. }
  destruct Hcases as [[-> Hq]|(-> & Hne & Hnone)].
  - split; [simpl; lia|]. split; [|done]. intros _.
    destruct Hq as [Hq|Hq]; [by left|]. right. by apply predefined_sql_some.
  - split; [simpl; lia|]. split; [done|].
    intros [Hq|Hk]; [done|]. apply predefined_sql_some in Hk.
    rewrite Hnone in Hk. by destruct Hk.
Qed.

(** ** The threshold is harmless *)

(** X6. Whatever the text that is searched, the threshold is made of three
    to six characters of the class of decimal digits, or is the default
    1000: nothing but digit characters reaches the SQL of rule 9 through the
    threshold.  The digits need not be 0-9, Arabic-Indic digits pass as
    well; within U+0000-U+00FF they are 0-9. *)
Theorem threshold_is_digits (query : list Wide.char) :
  Wide.all_digits (Wide.threshold_of query) = true
  /\ 3 <= length (Wide.threshold_of query) <= 6
  /\ (forall narrow : string,
        all_digits (threshold_of narrow) = true
        /\ 3 <= String.length (threshold_of narrow) <= 6
        /\ rule_sql 9 narrow
           = sql_above_head +:+ threshold_of narrow +:+ sql_above_tail)
  /\ Wide.threshold_of
       (Wide.of_string "invoice above "
        ++ [Wide.ArabicIndic Wide.D1; Wide.ArabicIndic Wide.D2;
            Wide.ArabicIndic Wide.D3; Wide.ArabicIndic Wide.D4])
     = [Wide.ArabicIndic Wide.D1; Wide.ArabicIndic Wide.D2;
        Wide.ArabicIndic Wide.D3; Wide.ArabicIndic Wide.D4].
Proof.
  split; [|split; [|split]].
  - destruct (wide_threshold_of_cases query)
      as [(pre & post & _ & (Hd & _) & _)|[-> _]]; [done|reflexivity].
  - destruct (wide_threshold_of_cases query)
      as [(pre & post & _ & (_ & Hlen & _) & _)|[-> _]]; [done|simpl; lia].
  - intros narrow. split; [|split; [|reflexivity]];
      destruct (threshold_of_cases narrow)
        as [(pre & post & _ & (Hd & Hlen & _) & _)|[-> _]];
      try done; simpl; lia.
  - vm_compute. reflexivity.
Qed.

(** ** Rules that hide one another *)

Lemma startswith_split p s :
  Py.startswith p s = true -> exists r, s = p +:+ r.
Proof.
  revert s. induction p as [|c p IH]; intros s H; [by exists s|].
  destruct s as [|d t]; [done|]. simpl in H.
  destruct (ascii_dec c d) as [<-|]; [|done].
  destruct (IH t H) as [r ->]. by exists r.
Qed.

Lemma contains_split p s :
  Py.contains p s = true -> exists l r, s = l +:+ p +:+ r.
Proof.
  induction s as [|c t IH]; intros H.
  - simpl in H. rewrite orb_false_r in H.
    apply startswith_split in H as [r ->]. by exists "", r.
  - rewrite contains_cons in H. apply orb_true_iff in H as [H|H].
    + apply startswith_split in H as [r ->]. by exists "", r.
    + destruct (IH H) as (l & r & ->). by exists (String c l), r.
Qed.

Lemma contains_trans a b s :
  Py.contains a b = true -> Py.contains b s = true -> Py.contains a s = true.
Proof.
  intros Hab Hbs. apply contains_split in Hbs as (l & r & ->).
  by apply contains_app_r, contains_app_l.
Qed.

Lemma total_pending_is_pending query :
  rule_holds 10 query = true -> rule_holds 6 query = true.
Proof.
  simpl. intros H. apply orb_true_iff in H as [H|H];
    apply orb_true_iff; right;
    (eapply contains_trans; [|exact H]); reflexivity.
Qed.

(** X7. The rule for the total pending amount can never be the one that
    answers: a question that satisfies it satisfies the earlier rule for
    overdue or pending invoices.  Each of the other eleven rules answers
    some question. *)
Theorem total_pending_rule_is_dead :
  (forall query, rule_holds 10 query = true -> rule_holds 6 query = true)
  /\ (forall query, predefined_sql query <> Some sql_total_pending)
  /\ Forall (fun k => exists query, predefined_sql query = Some (rule_sql k query))
       [1; 2; 3; 4; 5; 6; 7; 8; 9; 11; 12].
Proof.
  split; [apply total_pending_is_pending|]. split.
  - intros query Heq.
    destruct (predefined_sql_first query) as [(k & Hk & Hh & Hb & Hsql)|[_ H]];
      [|congruence].
    rewrite Hsql in Heq. injection Heq as Heq.
    apply (rule_sql_inj query k 10) in Heq; [|lia..]. subst k.
    apply total_pending_is_pending in Hh. rewrite Hb in Hh by lia. discriminate.
  - repeat constructor.
    + by exists "total spend 90".
    + by exists "top vendor".
    + by exists "average invoice".
    + by exists "expenses".
    + by exists "category spend".
    + by exists "pending".
    + by exists "processed this month".
    + by exists "compare vendor quarter".
    + by exists "invoice above".
    + by exists "invoice count vendor".
    + by exists "category this year".
Qed.

Lemma total_pending_rule_is_dead_witness :
  rule_holds 6 "total pending amount" = true
  /\ predefined_sql "total pending amount" <> Some sql_total_pending.
Proof.
  destruct total_pending_rule_is_dead as (Hhidden & Hdead & _).
  split; [by apply Hhidden | apply Hdead].
Defined.

(** ** Longer questions *)

Lemma lower_app a b : Py.lower (a +:+ b) = Py.lower a +:+ Py.lower b.
Proof. induction a as [|c a IH]; [done|]. rewrite !app_cons. simpl. by rewrite IH. Qed.

Lemma contains_embed x a q b :
  Py.contains x q = true -> Py.contains x (a +:+ q +:+ b) = true.
Proof. intros H. by apply contains_app_r, contains_app_l. Qed.

Lemma rule_holds_embed k a q b :
  rule_holds k q = true -> rule_holds k (a +:+ q +:+ b) = true.
Proof.
  do 13 (destruct k as [|k]; [simpl; try discriminate;
    rewrite ?andb_true_iff, ?orb_true_iff;
    intuition auto using contains_embed|]).
  discriminate.
Qed.

(** X8. Text added before and after a question never moves it from the
    rules to the model, and never down the list: if rule k holds for a
    question, every question that contains it is answered by a rule whose
    number is at most k. *)
Theorem longer_question_same_or_earlier_rule (k : nat) (a q b : string) :
  1 <= k <= 12 ->
  rule_holds k (Py.lower q) = true ->
  exists k', 1 <= k' <= k
    /\ predefined_sql (Py.lower (a +:+ q +:+ b))
       = Some (rule_sql k' (Py.lower (a +:+ q +:+ b))).
Proof.
  intros Hk Hh. rewrite !lower_app.
  apply (rule_holds_embed k (Py.lower a) _ (Py.lower b)) in Hh.
  destruct (predefined_sql_first (Py.lower a +:+ Py.lower q +:+ Py.lower b))
    as [(k' & Hk' & Hh' & Hb' & Hsql)|[Hnone _]].
  - exists k'. split; [|done]. split; [lia|].
    destruct (Nat.le_gt_cases k' k) as [|Hgt]; [done|].
    rewrite Hb' in Hh by lia. discriminate.
  - rewrite Hnone in Hh by done. discriminate.
Qed.

Lemma longer_question_same_or_earlier_rule_witness :
  exists k', 1 <= k' <= 6
    /\ predefined_sql (Py.lower ("Top vendors with " +:+ "Pending" +:+ " invoices"))
       = Some (rule_sql k' (Py.lower ("Top vendors with " +:+ "Pending" +:+ " invoices"))).
Proof.
  apply (longer_question_same_or_earlier_rule 6 "Top vendors with " "Pending" " invoices").
  - lia.
  - reflexivity.
Defined.

(** ** Keys of a record *)

Lemma dom_foldl_insert {V : Type} (l : list (string * V)) (d : gmap string V) :
  dom (foldl (fun d kv => <[kv.1 := kv.2]> d) d l) = dom d ∪ list_to_set (l.*1).
Proof.
  revert d. induction l as [|[k x] l IH]; intros d; simpl.
  - by rewrite (right_id_L ∅ (∪)).
  - rewrite IH, dom_insert_L.
    by rewrite (comm_L (∪) {[k]} (dom d)), <- (assoc_L (∪)).
Qed.

Lemma fst_zip_take (columns : list string) (row : list cell) :
  (zip columns row).*1 = take (length row) columns.
Proof.
  revert row. induction columns as [|c columns IH]; intros [|x row]; simpl;
    try done. by rewrite IH.
Qed.

(** X9. The keys of a record are the names of the columns that the row
    reaches.  When the column names are distinct the record has as many
    entries as the shorter of the two lists, and every paired column reads
    back its own cell. *)
Theorem record_keys (columns : list string) (row : list cell) :
  dom (dict_zip columns row) = list_to_set (take (length row) columns)
  /\ (NoDup columns ->
      size (dict_zip columns row) = length columns `min` length row
      /\ forall i name v,
           columns !! i = Some name -> row !! i = Some v ->
           dict_zip columns row !! name = Some v).
Proof.
  split.
  - unfold dict_zip, dict. rewrite dom_foldl_insert, dom_empty_L, fst_zip_take.
    by rewrite (left_id_L ∅ (∪)).
  - intros Hnd. split.
    + rewrite <- (size_dom (D := gset string)).
      unfold dict_zip, dict.
      rewrite dom_foldl_insert, dom_empty_L, fst_zip_take, (left_id_L ∅ (∪)).
      rewrite size_list_to_set.
      * rewrite length_take. lia.
      * apply (sublist_NoDup _ columns); [done|apply sublist_take].
    + intros i name v Hc Hr. apply dict_zip_lookup.
      exists i. split; [done|]. split; [done|].
      intros j Hj Hcj. pose proof (NoDup_lookup _ _ _ _ Hnd Hc Hcj). lia.
Qed.

Lemma record_keys_witness :
  size (dict_zip ["id"; "status"; "amount"] [CInt 7; CStr "paid"]) = 2
  /\ dict_zip ["id"; "status"; "amount"] [CInt 7; CStr "paid"] !! "status"
     = Some (CStr "paid").
Proof.
  assert (Hnd : NoDup ["id"; "status"; "amount"]).
  { repeat constructor; intros H;
      repeat (apply elem_of_cons in H as [H|H]; [discriminate H|]);
      by apply elem_of_nil in H. }
  destruct (proj2 (record_keys ["id"; "status"; "amount"] [CInt 7; CStr "paid"]) Hnd)
    as [Hsize Hget].
  split; [exact Hsize|]. by apply (Hget 1).
Defined.

(** ** Cleaning, for every reply *)

(** X10. Whatever the model returned, the SQL kept contains no fence and
    has no whitespace at either end, and cleaning it again changes
    nothing. *)
Theorem clean_sql_settles (content : string) :
  Py.contains fence (clean_sql content) = false
  /\ Py.strip (clean_sql content) = clean_sql content
  /\ clean_sql (clean_sql content) = clean_sql content.
Proof.
  assert (H : Py.contains fence (clean_sql content) = false
              /\ Py.strip (clean_sql content) = clean_sql content).
  { unfold clean_sql. destruct (Py.contains fence (Py.strip content)) eqn:E.
    - split; [|apply strip_idem]. apply not_true_iff_false. intros Hc.
      apply strip_contains in Hc. by rewrite delete_fence_no_fence in Hc.
    - split; [done|apply strip_idem]. }
  destruct H as [Hf Hs]. split; [done|]. split; [done|].
  unfold clean_sql at 1. by rewrite Hs, Hf.
Qed.

(** ** Closing the connection *)

(** X11. Step 3 reaches the call that closes the connection exactly when
    every call before it returned: connect, cursor, execute, fetchall, the
    column names and the closing of the cursor.  A failure anywhere earlier
    leaves the connection unclosed. *)
Theorem connection_closed_iff (w : world) (query sql : string) :
  EvConnClose ∈ trace (execute_sql w query sql) <->
    db_connect w = Returns tt /\ db_cursor w = Returns tt
    /\ db_execute w sql = Returns tt
    /\ (exists rows, db_fetchall w sql = Returns rows)
    /\ (exists columns, db_description w sql = Some columns)
    /\ db_cursor_close w = Returns tt.
Proof.
  assert (Hno : forall l : list event,
            Forall (fun e => e <> EvConnClose) l -> EvConnClose ∉ l).
  { intros l Hl Hin. rewrite Forall_forall in Hl. by apply (Hl _ Hin). }
  unfold execute_sql, get_db, call, columns_of.
  destruct (db_connect w) as [[]|m1];
    [|split; [intros H; exfalso; revert H; apply Hno; by repeat constructor
             |by intros ([=] & _)]].
  destruct (db_cursor w) as [[]|m2];
    [|split; [intros H; exfalso; revert H; apply Hno; by repeat constructor
             |by intros (_ & [=] & _)]].
  destruct (db_execute w sql) as [[]|m3];
    [|split; [intros H; exfalso; revert H; apply Hno; by repeat constructor
             |by intros (_ & _ & [=] & _)]].
  destruct (db_fetchall w sql) as [rows|m4];
    [|split; [intros H; exfalso; revert H; apply Hno; by repeat constructor
             |by intros (_ & _ & _ & [? [=]] & _)]].
  destruct (db_description w sql) as [columns|];
    [|split; [intros H; exfalso; revert H; apply Hno; by repeat constructor
             |by intros (_ & _ & _ & _ & [? [=]] & _)]].
  destruct (db_cursor_close w) as [[]|m6];
    [|split; [intros H; exfalso; revert H; apply Hno; by repeat constructor
             |by intros (_ & _ & _ & _ & _ & [=])]].
  split; [intros _; repeat split; try done; by eexists|intros _].
  destruct (db_conn_close w) as [[]|m7]; simpl;
    do 5 (apply elem_of_cons; right); apply elem_of_cons; by left.
Qed.

(** ** A reply without a fence *)

(** X12. On the fallback path only the first choice of the completion is
    read.  When its text contains no fence, the SQL handed to Step 3 is that
    text stripped and nothing else is done to it. *)
Theorem plain_reply_is_stripped (w : world) (query content : string)
    (rest : list (option string)) :
  predefined_sql query = None ->
  groq_create w (prompt_of query) = Returns (Some content :: rest) ->
  Py.contains fence content = false ->
  resolve_sql w query =
    ([EvGroq groq_model [("user", prompt_of query)]],
     Returns (inr (Py.strip content))).
Proof.
  intros Hnone Hreply Hplain.
  assert (Hclean : clean_sql content = Py.strip content).
  { unfold clean_sql.
    destruct (Py.contains fence (Py.strip content)) eqn:E; [|reflexivity].
    apply strip_contains in E. congruence. }
  rewrite <- Hclean. unfold resolve_sql, groq_sql, call, first_content.
  by rewrite Hnone, Hreply.
Qed.

Lemma plain_reply_is_stripped_witness :
  resolve_sql world_up "show payments" =
    ([EvGroq groq_model [("user", prompt_of "show payments")]],
     Returns (inr (Py.strip "SELECT 1;"))).
Proof.
  apply (plain_reply_is_stripped world_up "show payments" "SELECT 1;" []);
    reflexivity.
Defined.
